(** * fpl-etl: extraction, normalisation, schema inference and loading

    A shallow embedding of the [etl] package (extractors.py, utils.py,
    loaders.py, pipeline.py) and the properties of its specification.

    Conventions of the embedding.
    - Python [str] is [string]; [str.upper] acts on the ASCII letters.
    - Python values that travel through a stamp or a JSON body are [json].
    - A Python [float] is kept as an exact ratio; no property below depends
      on rounding.
    - An exception is a value of [PyExc]; a computation that may raise
      returns [Result].  Code that also touches the network, the clock or
      the database threads a state explicitly.
    - The [dict] that [APIExtractor.get] builds and [parse] mutates is a
      [gmap string StampVal]. *)

From Stdlib Require Import ZArith Ascii String DecimalString.
From stdpp Require Import base option list gmap strings.

Set Warnings "-register-all,-abstract-large-number,-clear-no-such-hyp".
Local Open Scope string_scope.
Local Open Scope Z_scope.

(** ** Strings *)

Module Str.

(** [c.upper()] for one character of the ASCII range. *)
Definition upper_ascii (c : ascii) : ascii :=
  let n := nat_of_ascii c in
  if ((97 <=? n)%nat && (n <=? 122)%nat)%bool then ascii_of_nat (n - 32) else c.

(** [s.upper()]. *)
Fixpoint upper (s : string) : string :=
  match s with
  | EmptyString => EmptyString
  | String c s' => String (upper_ascii c) (upper s')
  end.

(** [len(s)], as an integer. *)
Definition len (s : string) : Z := Z.of_nat (String.length s).

(** [str(n)] for an integer. *)
Definition of_Z (n : Z) : string := NilZero.string_of_int (Z.to_int n).

(** [sep.join(parts)]. *)
Fixpoint join (sep : string) (parts : list string) : string :=
  match parts with
  | [] => EmptyString
  | [p] => p
  | p :: rest => p ++ sep ++ join sep rest
  end.

(** A string of [n] copies of one character, for sized examples. *)
Fixpoint replicate_char (n : nat) (c : ascii) : string :=
  match n with
  | O => EmptyString
  | S n' => String c (replicate_char n' c)
  end.

End Str.

(** ** Exceptions and fallible results *)

(** The exception classes the package meets.  [DatabaseError] and the classes
    below it in the driver's hierarchy are what [except odb.DatabaseError]
    intercepts; [InterfaceError] is its sibling under the driver's [Error]. *)
Inductive ExcClass :=
  | DatabaseError | DataError | IntegrityError | InternalError
  | NotSupportedError | OperationalError | ProgrammingError
  | InterfaceError
  | KeyError | TypeError | AttributeError | ValueError
  | ShapeError | ColumnNotFoundError
  | RequestException | JSONDecodeError.

Record PyExc := mkExc { exc_class : ExcClass; exc_msg : string }.

(** [isinstance(e, odb.DatabaseError)]. *)
Definition is_database_error (e : PyExc) : bool :=
  match exc_class e with
  | DatabaseError | DataError | IntegrityError | InternalError
  | NotSupportedError | OperationalError | ProgrammingError => true
  | _ => false
  end.

Inductive Result (A : Type) :=
  | Ok (a : A)
  | Raise (e : PyExc).
Arguments Ok {A} a.
Arguments Raise {A} e.

Definition rbind {A B} (m : Result A) (k : A → Result B) : Result B :=
  match m with
  | Ok a => k a
  | Raise e => Raise e
  end.

Notation "x <-- m ;; k" := (rbind m (λ x, k))
  (at level 100, m at next level, right associativity).

Definition is_ok {A} (r : Result A) : bool :=
  match r with Ok _ => true | Raise _ => false end.

(** ** Python values *)

(** A Python [float], kept exact. *)
Record pyfloat := mkFloat { fnum : Z; fden : positive }.

(** The values [Response.json()] can return, which are also the values a
    stamp carries and the cells of a data frame. *)
Inductive json :=
  | JNull
  | JBool (b : bool)
  | JInt (n : Z)
  | JFloat (f : pyfloat)
  | JStr (s : string)
  | JList (items : list json)
  | JDict (entries : list (string * json)).

(** Truth value of a Python object, as [x or y] tests it. *)
Definition truthy (v : json) : bool :=
  match v with
  | JNull => false
  | JBool b => b
  | JInt n => negb (n =? 0)
  | JFloat f => negb (fnum f =? 0)
  | JStr s => negb (String.eqb s EmptyString)
  | JList items => match items with [] => false | _ => true end
  | JDict entries => match entries with [] => false | _ => true end
  end.

(** [x == 200] for a Python object [x]. *)
Definition eq_200 (v : json) : bool :=
  match v with
  | JInt n => n =? 200
  | JFloat f => fnum f =? 200 * Z.pos (fden f)
  | _ => false
  end.

(** Lookup in the entries of a JSON object: the last binding of a repeated
    key wins, as in the [dict] the parser builds. *)
Fixpoint entries_get (entries : list (string * json)) (key : string) : option json :=
  match entries with
  | [] => None
  | (k, v) :: rest =>
      match entries_get rest key with
      | Some v' => Some v'
      | None => if String.eqb k key then Some v else None
      end
  end.

(** [body.get(key)]: [None] for an absent key; only a [dict] has [get]. *)
Definition json_get (body : json) (key : string) : Result json :=
  match body with
  | JDict entries =>
      Ok (match entries_get entries key with Some v => v | None => JNull end)
  | _ => Raise (mkExc AttributeError "object has no attribute 'get'")
  end.

(** ** Data frames (the [polars] tables of extractors.py and utils.py) *)

Module Frame.

(** Column types, as far as the package tells them apart. *)
Inductive DataType :=
  | Boolean | Int8 | Int32 | Int64 | Float64 | String_ | Null
  | List (inner : DataType)
  | Struct (fields : list (string * DataType)).

(** [isinstance(dtype, pl.List) or isinstance(dtype, pl.Struct)]. *)
Definition is_nested (t : DataType) : bool :=
  match t with
  | List _ | Struct _ => true
  | _ => false
  end.

(** [dtype == pl.Boolean]. *)
Definition is_boolean (t : DataType) : bool :=
  match t with
  | Boolean => true
  | _ => false
  end.

(** A named, typed column.  Its cells are shown as the Python values that
    [to_list()] gives; a null cell is [JNull]. *)
Record Series := mkSeries {
  sname : string;
  dtype : DataType;
  cells : list json
}.

Definition slen (s : Series) : nat := length (cells s).

(** A frame is a number of rows and its columns, in order.  The height is
    the frame's own: a frame without columns still has one, zero when it is
    built from nothing and unchanged when its last column is dropped. *)
Record DataFrame := mkFrame { height : nat; columns : list Series }.

Definition width (df : DataFrame) : nat := length (columns df).

(** [df.columns]. *)
Definition column_names (df : DataFrame) : list string := map sname (columns df).

(** [df.schema.items()]. *)
Definition schema (df : DataFrame) : list (string * DataType) :=
  map (λ c, (sname c, dtype c)) (columns df).

(** [df[name]]: the first column of that name. *)
Fixpoint find_column (name : string) (cols : list Series) : option Series :=
  match cols with
  | [] => None
  | c :: rest => if String.eqb (sname c) name then Some c else find_column name rest
  end.

Definition get_column (df : DataFrame) (name : string) : option Series :=
  find_column name (columns df).

(** The invariant of a frame the library hands out: column names are
    distinct and all columns have one length. *)
Definition well_formed (df : DataFrame) : Prop :=
  NoDup (column_names df) ∧ Forall (λ c, slen c = height df) (columns df).

(** [pl.DataFrame([])] and [pl.DataFrame()]: no columns, no rows. *)
Definition empty : DataFrame := mkFrame 0 [].

(** [pl.DataFrame({name: [], ...})]: columns without rows, of type [Null]. *)
Definition of_empty_columns (names : list string) : DataFrame :=
  mkFrame 0 (map (λ n, mkSeries n Null []) names).

(** [df.drop(names)] for names taken from [df] itself; the rows stay. *)
Definition drop (names : list string) (df : DataFrame) : DataFrame :=
  mkFrame (height df) (filter (λ c, sname c ∉ names) (columns df)).

(** *** Expressions *)

(** The two shapes of expression the package builds:
    [pl.lit(v).alias(name)] and [pl.col(c).cast(pl.Int8).alias(name)]. *)
Inductive Expr :=
  | LitAlias (v : json) (name : string)
  | CastInt8Alias (col : string) (name : string).

(** The type the library gives a literal. *)
Fixpoint dtype_of_value (v : json) : DataType :=
  match v with
  | JNull => Null
  | JBool _ => Boolean
  | JInt _ => Int32
  | JFloat _ => Float64
  | JStr _ => String_
  | JList items =>
      List (match items with [] => Null | x :: _ => dtype_of_value x end)
  | JDict entries =>
      Struct ((fix go (es : list (string * json)) :=
                 match es with
                 | [] => []
                 | (k, x) :: es' => (k, dtype_of_value x) :: go es'
                 end) entries)
  end.

(** Casting one cell of a Boolean column to [Int8]: the library stores
    [True]/[False] as 1/0 and keeps a null as it is. *)
Definition cast_int8 (v : json) : json :=
  match v with
  | JBool true => JInt 1
  | JBool false => JInt 0
  | other => other
  end.

(** Evaluation of an expression in the context of a frame.  A literal is a
    column of one cell until it is added to a frame. *)
Definition eval (df : DataFrame) (e : Expr) : Result Series :=
  match e with
  | LitAlias v name => Ok (mkSeries name (dtype_of_value v) [v])
  | CastInt8Alias col name =>
      match get_column df col with
      | Some c => Ok (mkSeries name Int8 (map cast_int8 (cells c)))
      | None => Raise (mkExc ColumnNotFoundError col)
      end
  end.

Fixpoint eval_all (df : DataFrame) (es : list Expr) : Result (list Series) :=
  match es with
  | [] => Ok []
  | e :: rest =>
      s <-- eval df e ;;
      ss <-- eval_all df rest ;;
      Ok (s :: ss)
  end.

(** *** Adding columns *)

(** A column takes the place of the first column of its name, or goes last. *)
Fixpoint add_by_search (s : Series) (cols : list Series) : list Series :=
  match cols with
  | [] => [s]
  | c :: rest =>
      if String.eqb (sname c) (sname s) then s :: rest
      else c :: add_by_search s rest
  end.

(** A one-cell column repeated to [n] cells. *)
Definition new_from_index (s : Series) (n : nat) : Series :=
  match cells s with
  | [] => s
  | v :: _ => mkSeries (sname s) (dtype s) (repeat v n)
  end.

(** Adding one evaluated column to a frame, the library's rule:
    - a one-cell column (a literal) is repeated to the height of the frame,
      whatever that height is: to no cell at all in a frame without rows,
      with or without columns;
    - a column of the frame's height takes the place of the column of its
      name or goes last;
    - any other length is refused.
    The height of the frame does not change. *)
Definition with_column (df : DataFrame) (s : Series) : Result DataFrame :=
  let h := height df in
  let s := if ((slen s =? 1)%nat && negb (h =? 1)%nat)%bool then new_from_index s h else s in
  if (slen s =? h)%nat then
    Ok (mkFrame h (add_by_search s (columns df)))
  else
    Raise (mkExc ShapeError (sname s)).

Fixpoint add_columns (df : DataFrame) (ss : list Series) : Result DataFrame :=
  match ss with
  | [] => Ok df
  | s :: rest =>
      df' <-- with_column df s ;;
      add_columns df' rest
  end.

(** [df.with_columns(exprs)]: every expression is evaluated on [df] itself,
    then the results are added from left to right. *)
Definition with_columns (df : DataFrame) (es : list Expr) : Result DataFrame :=
  ss <-- eval_all df es ;;
  add_columns df ss.

End Frame.

(** ** utils.py *)

Module Utils.
Import Frame.

(** [clean_df(df)]: nested columns are dropped, then every Boolean column is
    cast to [Int8] under its own name. *)
Definition clean_df (df : DataFrame) : Result DataFrame :=
  let list_cols :=
    map fst (filter (λ p, is_nested (snd p) = true)
                    (zip (column_names df) (map dtype (columns df)))) in
  let df := drop list_cols df in
  let bool_cols := map fst (filter (λ p, is_boolean (snd p) = true) (schema df)) in
  match bool_cols with
  | [] => Ok df
  | _ =>
      let conversions := map (λ col, CastInt8Alias col col) bool_cols in
      with_columns df conversions
  end.

End Utils.

(** ** extractors.py *)

(** What the package reads of a [requests.Response]: the status code, the
    elapsed time (a [timedelta], whole microseconds) and what [json()]
    returns or raises. *)
Record Response := mkResponse {
  status_code : Z;
  elapsed_us : Z;
  json_body : Result json
}.

(** A value stored in a stamp: a plain Python value or the response object. *)
Inductive StampVal :=
  | SVal (v : json)
  | SResponse (r : Response).

(** The state outside the process that the extractor reads and writes: a
    counter that stands for the clock and the random source, and the URLs
    requested so far, oldest first. *)
Record World := mkWorld {
  tick : nat;
  fetched : list string
}.

(** The four columns every buffer is stamped with, in the order [parse]
    adds them. *)
Definition stamp_columns : list string :=
  ["request_id"; "request_time"; "response_code"; "response_elapsed_ms"].

Section Extractor.
Import Frame.

(** The collaborators of the extractor: [uuid.uuid4], [datetime.now] (already
    formatted), [requests.get], [urllib.parse.urljoin], and the constructor
    [pl.DataFrame(data)] on data other than the empty list. *)
Variable uuid4 : nat → string.
Variable now_iso : nat → string.
Variable requests_get : string → nat → Result Response.
Variable urljoin : string → string → string.
Variable frame_of_records : json → Result DataFrame.

(** [APIExtractor.stamp]. *)
Definition stamp (w : World) : gmap string StampVal * World :=
  (<["request_time" := SVal (JStr (now_iso (tick w)))]>
     (<["request_id" := SVal (JStr (uuid4 (tick w)))]> ∅),
   mkWorld (S (tick w)) (fetched w)).

(** [APIExtractor.get]: one request per call. *)
Definition get (url : string) (w : World) : Result (gmap string StampVal) * World :=
  let '(st, w1) := stamp w in
  let w2 := mkWorld (S (tick w1)) (fetched w1 ++ [url]) in
  match requests_get url (tick w1) with
  | Raise e => (Raise e, w2)
  | Ok response =>
      let st := <["response" := SResponse response]> st in
      let st := <["response_code" := SVal (JInt (status_code response))]> st in
      let st := <["response_elapsed_ms" :=
                    SVal (JFloat (mkFloat (elapsed_us response) 1000))]> st in
      (Ok st, w2)
  end.

(** [stamp[k]]. *)
Definition stamp_item (st : gmap string StampVal) (k : string) : Result StampVal :=
  match st !! k with
  | Some v => Ok v
  | None => Raise (mkExc KeyError k)
  end.

(** [stamp["response_code"] == 200]. *)
Definition is_200 (v : StampVal) : bool :=
  match v with
  | SVal j => eq_200 j
  | SResponse _ => false
  end.

(** [stamp["response"].json()]. *)
Definition response_json (v : StampVal) : Result json :=
  match v with
  | SResponse r => json_body r
  | SVal _ => Raise (mkExc AttributeError "object has no attribute 'json'")
  end.

(** The first half of [parse]: the stamp is updated in place. *)
Definition parse_store (st : gmap string StampVal) (key : option string)
  : Result (gmap string StampVal) :=
  code <-- stamp_item st "response_code" ;;
  st1 <-- (if is_200 code then
             match key with
             | None =>
                 r <-- stamp_item st "response" ;;
                 body <-- response_json r ;;
                 Ok (<["data" := SVal body]> st)
             | Some k =>
                 r <-- stamp_item st "response" ;;
                 body <-- response_json r ;;
                 v <-- json_get body k ;;
                 Ok (<[k := SVal v]> st)
             end
           else Ok (<["data" := SVal JNull]> st)) ;;
  match st1 !! "response" with
  | Some _ => Ok (delete "response" st1)
  | None => Raise (mkExc KeyError "response")
  end.

(** [pl.DataFrame(data)]. *)
Definition pl_DataFrame (data : json) : Result DataFrame :=
  match data with
  | JList [] => Ok Frame.empty
  | _ => frame_of_records data
  end.

(** [stamp.get(key) or []], handed to the constructor. *)
Definition frame_of_key (st : gmap string StampVal) (k : string) : Result DataFrame :=
  match st !! k with
  | Some (SVal v) => pl_DataFrame (if truthy v then v else JList [])
  | Some (SResponse _) => Raise (mkExc TypeError "DataFrame constructor")
  | None => pl_DataFrame (JList [])
  end.

(** [pl.lit(stamp[name]).alias(name)]. *)
Definition lit_of_stamp (st : gmap string StampVal) (name : string) : Result Expr :=
  v <-- stamp_item st name ;;
  match v with
  | SVal j => Ok (LitAlias j name)
  | SResponse _ => Raise (mkExc TypeError "lit")
  end.

(** [df.with_columns(pl.lit(stamp[name]).alias(name))]. *)
Definition enrich_one (st : gmap string StampVal) (df : DataFrame) (name : string)
  : Result DataFrame :=
  e <-- lit_of_stamp st name ;;
  with_columns df [e].

Fixpoint enrich (st : gmap string StampVal) (df : DataFrame) (names : list string)
  : Result DataFrame :=
  match names with
  | [] => Ok df
  | n :: rest =>
      df' <-- enrich_one st df n ;;
      enrich st df' rest
  end.

(** The second half of [parse]: the buffer. *)
Definition parse_frame (st : gmap string StampVal) (key : option string)
  : Result DataFrame :=
  code <-- stamp_item st "response_code" ;;
  df <-- (match key with
          | Some k =>
              if is_200 code then frame_of_key st k
              else Ok (of_empty_columns stamp_columns)
          | None => Ok (of_empty_columns stamp_columns)
          end) ;;
  df <-- Utils.clean_df df ;;
  enrich st df stamp_columns.

(** [APIExtractor.parse]. *)
Definition parse (st : gmap string StampVal) (key : option string) : Result DataFrame :=
  st' <-- parse_store st key ;;
  parse_frame st' key.

(** [self.parse(self.get(url), key=key)]. *)
Definition fetch (url : string) (key : option string) (w : World)
  : Result DataFrame * World :=
  match get url w with
  | (Ok st, w') => (parse st key, w')
  | (Raise e, w') => (Raise e, w')
  end.

(** The items of [for k in keys: yield k, self.parse(self.get(url), key=k)]. *)
Fixpoint generate_keys (url : string) (keys : list string) (w : World)
  : Result (list (string * DataFrame)) * World :=
  match keys with
  | [] => (Ok [], w)
  | k :: rest =>
      match fetch url (Some k) w with
      | (Raise e, w') => (Raise e, w')
      | (Ok df, w') =>
          match generate_keys url rest w' with
          | (Raise e, w'') => (Raise e, w'')
          | (Ok items, w'') => (Ok ((k, df) :: items), w'')
          end
      end
  end.

(** The items one endpoint contributes. *)
Definition generate_endpoint (base e : string) (keys : list string) (w : World)
  : Result (list (string * DataFrame)) * World :=
  let url := urljoin base e in
  match keys with
  | [] =>
      match fetch url None w with
      | (Raise e', w') => (Raise e', w')
      | (Ok df, w') => (Ok [(e, df)], w')
      end
  | _ => generate_keys url keys w
  end.

(** [FPL.generate], run to its end: the items in the order they are yielded.
    [endpoints] is the [dict] of the instance, in insertion order. *)
Fixpoint generate (base : string) (endpoints : list (string * list string)) (w : World)
  : Result (list (string * DataFrame)) * World :=
  match endpoints with
  | [] => (Ok [], w)
  | (e, keys) :: rest =>
      match generate_endpoint base e keys w with
      | (Raise e', w') => (Raise e', w')
      | (Ok items, w') =>
          match generate base rest w' with
          | (Raise e', w'') => (Raise e', w'')
          | (Ok items', w'') => (Ok (items ++ items')%list, w'')
          end
      end
  end.

End Extractor.

(** The address and the endpoints of [FPL.__init__]. *)
Definition fpl_base : string := "https://fantasy.premierleague.com/api/".

Definition fpl_endpoints : list (string * list string) :=
  [("bootstrap-static", ["events"; "phases"; "teams"; "elements"]);
   ("fixtures", [])].

(** ** loaders.py *)

(** The characters that cannot be written inside a string literal. *)
Definition dquote : string := String (ascii_of_nat 34) EmptyString.
Definition newline : string := String (ascii_of_nat 10) EmptyString.

Module Arrow.

(** The types of a [pyarrow] schema, as [pa.types.is_*] tells them apart.
    The precision and the scale of a decimal are read as attributes; [None]
    stands for an attribute whose access raises. *)
Inductive DataType :=
  | Decimal (precision scale : option Z)
  | Integer (bits : nat) (signed : bool)
  | Float64 | Float32
  | Boolean
  | Binary | LargeBinary
  | Timestamp (tz : option string)
  | LargeString | String_
  | List (inner : DataType)
  | Struct (fields : list (string * DataType))
  | Other (name : string).

Record Field := mkField { name : string; type : DataType }.

(** A column of a table: its field and what [to_pylist()] gives. *)
Record Column := mkColumn { field : Field; to_pylist : list json }.

Definition Table := list Column.

Definition column_names (t : Table) : list string := map (λ c, name (field c)) t.

End Arrow.

Module Loader.
Import Arrow.

(** [t.precision], [t.scale]. *)
Definition attribute (a : option Z) (what : string) : Result Z :=
  match a with
  | Some n => Ok n
  | None => Raise (mkExc AttributeError what)
  end.

(** [len(x)]. *)
Definition py_len (x : json) : Result Z :=
  match x with
  | JStr s => Ok (Str.len s)
  | JList items => Ok (Z.of_nat (length items))
  | JDict entries => Ok (Z.of_nat (length entries))
  | _ => Raise (mkExc TypeError "object has no len()")
  end.

(** [(len(x) for x in values if x is not None)], forced. *)
Fixpoint lengths (values : list json) : Result (list Z) :=
  match values with
  | [] => Ok []
  | JNull :: rest => lengths rest
  | x :: rest =>
      n <-- py_len x ;;
      ns <-- lengths rest ;;
      Ok (n :: ns)
  end.

(** [max(ns, default=0)]. *)
Definition max_default0 (ns : list Z) : Z :=
  match ns with
  | [] => 0
  | n :: rest => fold_left Z.max rest n
  end.

(** The length taken from the sampled values of a string column. *)
Definition sampled_max_len (column : option (list json)) : Z :=
  match column with
  | None => 0
  | Some values =>
      match lengths values with
      | Ok ns => max_default0 ns
      | Raise _ => 0
      end
  end.

(** [if tz:] for the time zone of a timestamp type. *)
Definition has_tz (tz : option string) : bool :=
  match tz with
  | Some z => negb (String.eqb z EmptyString)
  | None => false
  end.

(** [_field_to_oracle_type(field, column)], on the type of the field. *)
Definition field_to_oracle_type (t : DataType) (column : option (list json)) : string :=
  match t with
  | Decimal precision scale =>
      match (p <-- attribute precision "precision" ;;
             s <-- attribute scale "scale" ;;
             Ok ("NUMBER(" ++ Str.of_Z p ++ "," ++ Str.of_Z s ++ ")")) with
      | Ok text => text
      | Raise _ => "NUMBER"
      end
  | Integer _ _ => "NUMBER"
  | Float64 => "BINARY_DOUBLE"
  | Float32 => "BINARY_FLOAT"
  | Boolean => "NUMBER(1)"
  | LargeBinary | Binary => "BLOB"
  | Timestamp tz => if has_tz tz then "TIMESTAMP WITH TIME ZONE" else "TIMESTAMP"
  | LargeString => "CLOB"
  | String_ =>
      let max_len := sampled_max_len column in
      let length := Z.max 255 (max_len * 3) in
      if length <=? 4000 then "VARCHAR2(" ++ Str.of_Z (Z.min length 4000) ++ ")"
      else "CLOB"
  | List _ | Struct _ => "BLOB"
  | Other _ => "CLOB"
  end.

(** [generate_oracle_ddl(table, table_name)]. *)
Definition generate_oracle_ddl (table : Table) (table_name : string) : string :=
  let column_defs :=
    map (λ c, "    " ++ dquote ++ Str.upper (name (field c)) ++ dquote ++ " "
              ++ field_to_oracle_type (type (field c)) (Some (to_pylist c)))
        table in
  "CREATE TABLE " ++ dquote ++ Str.upper table_name ++ dquote ++ " (" ++ newline
  ++ Str.join ("," ++ newline) column_defs ++ newline ++ ")".

(** *** The database behind the driver *)

Inductive Level := INFO | ERROR.

Record LogRecord := mkLog { level : Level; message : string }.

(** What the driver offers the loader, over a database state [DB]:
    [odb.connect(pool_alias=...)] and the end of its [with] block,
    [cursor.execute], [conn.commit], [cursor.fetchone()[0]],
    [odb.get_pool] (does it return a [ConnectionPool]?) and [pool.close]. *)
Record Driver (DB : Type) := mkDriver {
  connect : string → DB → Result unit * DB;
  release : DB → DB;
  execute : string → DB → Result unit * DB;
  commit : DB → Result unit * DB;
  fetchone0 : DB → Result Z * DB;
  get_pool : string → DB → Result bool * DB;
  pool_close : string → DB → Result unit * DB
}.
Arguments connect {DB} _ _ _.
Arguments release {DB} _ _.
Arguments execute {DB} _ _ _.
Arguments commit {DB} _ _.
Arguments fetchone0 {DB} _ _.
Arguments get_pool {DB} _ _ _.
Arguments pool_close {DB} _ _ _.

(** The state a loader method runs in: the database and the log written so
    far, oldest record first. *)
Record State (DB : Type) := mkState { db : DB; log : list LogRecord }.
Arguments mkState {DB} _ _.
Arguments db {DB} _.
Arguments log {DB} _.

Section Methods.
Context {DB : Type}.
Variable drv : Driver DB.
Variable pool_alias : string.

Definition Action (A : Type) : Type := State DB → Result A * State DB.

Definition ret {A} (a : A) : Action A := λ s, (Ok a, s).

Definition bind {A B} (m : Action A) (k : A → Action B) : Action B :=
  λ s, match m s with
       | (Ok a, s') => k a s'
       | (Raise e, s') => (Raise e, s')
       end.

Notation "x <~ m ;; k" := (bind m (λ x, k))
  (at level 100, m at next level, right associativity).
Notation "m ;;; k" := (bind m (λ _, k))
  (at level 100, right associativity).

(** [raise] of an exception in hand. *)
Definition raise {A} (e : PyExc) : Action A := λ s, (Raise e, s).

(** A call of the driver, run on the database of the state. *)
Definition call {A} (f : DB → Result A * DB) : Action A :=
  λ s, let '(r, d) := f (db s) in (r, mkState d (log s)).

Definition logger_info (msg : string) : Action unit :=
  λ s, (Ok tt, mkState (db s) (log s ++ [mkLog INFO msg])).

Definition logger_error (msg : string) : Action unit :=
  λ s, (Ok tt, mkState (db s) (log s ++ [mkLog ERROR msg])).

(** [with odb.connect(pool_alias=self.pool_alias) as conn: body]: the
    connection is given back when the block is left, on either way out. *)
Definition with_connection {A} (body : Action A) : Action A :=
  λ s, match call (connect drv pool_alias) s with
       | (Raise e, s') => (Raise e, s')
       | (Ok _, s') =>
           let '(r, s'') := body s' in
           (r, mkState (release drv (db s'')) (log s''))
       end.

(** [try: body  except odb.DatabaseError as e: handler(e)]. *)
Definition try_except_database_error {A} (body : Action A) (handler : PyExc → Action A)
  : Action A :=
  λ s, match body s with
       | (Raise e, s') =>
           if is_database_error e then handler e s' else (Raise e, s')
       | done => done
       end.

(** The [with] block of [truncate_table]. *)
Definition truncate_block (table_name : string) : Action unit :=
  with_connection
    (call (execute drv ("TRUNCATE TABLE " ++ table_name)) ;;;
     call (commit drv) ;;;
     logger_info ("Table " ++ table_name ++ " truncated successfully")).

(** [OracleDBLoader.truncate_table]. *)
Definition truncate_table (table_name : string) : Action unit :=
  logger_info ("Truncating table " ++ table_name) ;;;
  try_except_database_error
    (truncate_block table_name)
    (λ e, logger_error ("Truncation failed: " ++ exc_msg e) ;;; raise e).

(** The [with] block of [count_rows]. *)
Definition count_block (table_name : string) : Action Z :=
  with_connection
    (call (execute drv ("SELECT COUNT(*) FROM " ++ table_name)) ;;;
     row_count <~ call (fetchone0 drv) ;;
     logger_info ("Table " ++ table_name ++ " has " ++ Str.of_Z row_count ++ " rows") ;;;
     ret row_count).

(** [OracleDBLoader.count_rows]. *)
Definition count_rows (table_name : string) : Action Z :=
  logger_info ("Getting row count for table " ++ table_name) ;;;
  try_except_database_error
    (count_block table_name)
    (λ e, logger_error ("Row count retrieval failed: " ++ exc_msg e) ;;; raise e).

(** The [with] block of [drop_table]. *)
Definition drop_block (table_name : string) : Action unit :=
  with_connection
    (call (execute drv ("DROP TABLE " ++ table_name ++ " PURGE")) ;;;
     call (commit drv) ;;;
     logger_info ("Table " ++ table_name ++ " dropped successfully")).

(** [OracleDBLoader.drop_table]. *)
Definition drop_table (table_name : string) : Action unit :=
  logger_info ("Dropping table " ++ table_name) ;;;
  try_except_database_error
    (drop_block table_name)
    (λ e, logger_error ("Dropping table failed: " ++ exc_msg e) ;;; raise e).

(** The [with] block of [create_table]. *)
Definition create_block (table_name ddl : string) : Action unit :=
  with_connection
    (call (execute drv ddl) ;;;
     call (commit drv) ;;;
     logger_info ("Table " ++ table_name ++ " created successfully")).

(** [OracleDBLoader.create_table]. *)
Definition create_table (table_name : string) (table : Table) : Action unit :=
  let ddl := generate_oracle_ddl table table_name in
  logger_info ("Generated DDL: " ++ ddl) ;;;
  try_except_database_error
    (create_block table_name ddl)
    (λ e, logger_error ("Creating table failed: " ++ exc_msg e) ;;; raise e).

(** The body of the [try] of [close]. *)
Definition close_block : Action unit :=
  is_pool <~ call (get_pool drv pool_alias) ;;
  (if is_pool : bool then call (pool_close drv pool_alias) else ret tt) ;;;
  logger_info "Connection pool closed successfully".

(** [OracleDBLoader.close]: the handler logs and does not raise. *)
Definition close : Action unit :=
  logger_info "Closing OracleDBLoader and its connection pool" ;;;
  try_except_database_error
    close_block
    (λ e, logger_error ("Failed to close connection pool: " ++ exc_msg e)).

End Methods.

End Loader.

(** ** pipeline.py *)

Module Pipeline.

Section Run.

(** The loader of the pipeline, seen through the two methods the pipeline
    calls, over a loader state [L]; and [DataFrame.to_arrow]. *)
Context {L : Type}.
Variable to_arrow : Frame.DataFrame → Arrow.Table.
Variable rebuild_table : string → Arrow.Table → L → Result unit * L.
Variable reload_table : string → Arrow.Table → L → Result unit * L.

(** The body of both loops, for one item and one loader method. *)
Definition load_item (method : string → Arrow.Table → L → Result unit * L)
    (table_prefix : string) (item : string * Frame.DataFrame) (l : L)
  : Result unit * L :=
  let '(k, df) := item in
  let data := to_arrow df in
  let table_name := table_prefix ++ "_" ++ Str.upper k in
  method table_name data l.

Fixpoint load_items (method : string → Arrow.Table → L → Result unit * L)
    (table_prefix : string) (items : list (string * Frame.DataFrame)) (l : L)
  : Result unit * L :=
  match items with
  | [] => (Ok tt, l)
  | item :: rest =>
      match load_item method table_prefix item l with
      | (Ok _, l') => load_items method table_prefix rest l'
      | (Raise e, l') => (Raise e, l')
      end
  end.

(** [Pipeline.rebuild(table_prefix)], on the items the generator yields. *)
Definition rebuild (table_prefix : string) (items : list (string * Frame.DataFrame))
  : L → Result unit * L :=
  load_items rebuild_table table_prefix items.

(** [Pipeline.reload(table_prefix)], on the items the generator yields. *)
Definition reload (table_prefix : string) (items : list (string * Frame.DataFrame))
  : L → Result unit * L :=
  load_items reload_table table_prefix items.

End Run.

(** The default of [table_prefix]. *)
Definition default_prefix : string := "FPL".

(** A loader that only keeps the calls it receives, oldest first. *)
Definition recording_loader (table_name : string) (data : Arrow.Table)
    (calls : list (string * Arrow.Table)) : Result unit * list (string * Arrow.Table) :=
  (Ok tt, (calls ++ [(table_name, data)])%list).

End Pipeline.

(** * Vocabulary of the properties *)

(** ** Normalisation *)

(** One column after normalisation: a Boolean column becomes an [Int8]
    column of the same name, any other column stays. *)
Definition cast_boolean (c : Frame.Series) : Frame.Series :=
  if Frame.is_boolean (Frame.dtype c)
  then Frame.mkSeries (Frame.sname c) Frame.Int8 (map Frame.cast_int8 (Frame.cells c))
  else c.

(** Normalisation, column by column: nested columns go, Boolean columns are
    cast, order and height are kept. *)
Definition normalized (df : Frame.DataFrame) : Frame.DataFrame :=
  Frame.mkFrame (Frame.height df)
    (map cast_boolean
         (filter (λ c, Frame.is_nested (Frame.dtype c) = false) (Frame.columns df))).

(** ** Stamps and buffers *)

(** A stamp that holds a plain value under each of the four stamp names. *)
Definition stamped (st : gmap string StampVal) : Prop :=
  ∀ n, n ∈ stamp_columns → ∃ v, st !! n = Some (SVal v).

(** The names one endpoint contributes to the sequence of [generate]. *)
Definition endpoint_names (endpoint : string * list string) : list string :=
  match snd endpoint with
  | [] => [fst endpoint]
  | keys => keys
  end.

(** The names of the items [generate] yields, in order. *)
Definition yielded_names (endpoints : list (string * list string)) : list string :=
  flat_map endpoint_names endpoints.

(** The requests behind them: one per item, to the address of its endpoint. *)
Definition requested_urls (urljoin : string → string → string) (base : string)
    (endpoints : list (string * list string)) : list string :=
  flat_map (λ endpoint, map (λ _, urljoin base (fst endpoint)) (endpoint_names endpoint))
           endpoints.

(** No request raises and every response can be made a buffer. *)
Definition fetches_succeed (uuid4 now_iso : nat → string)
    (requests_get : string → nat → Result Response)
    (frame_of_records : json → Result Frame.DataFrame) : Prop :=
  ∀ url key w, ∃ df, fst (fetch uuid4 now_iso requests_get frame_of_records url key w) = Ok df.

(** ** Table names *)

(** The calls a recording loader receives from one run over [items]. *)
Definition expected_calls (to_arrow : Frame.DataFrame → Arrow.Table)
    (table_prefix : string) (items : list (string * Frame.DataFrame))
  : list (string * Arrow.Table) :=
  map (λ item, (table_prefix ++ "_" ++ Str.upper (fst item), to_arrow (snd item))) items.

(** ** Sampled strings *)

(** The sampled values of a string column: strings and nulls. *)
Definition sample (values : list (option string)) : list json :=
  map (λ v, match v with Some s => JStr s | None => JNull end) values.

(** The length of the longest non-null string of a sample, 0 without one. *)
Fixpoint longest (values : list (option string)) : Z :=
  match values with
  | [] => 0
  | Some s :: rest => Z.max (Str.len s) (longest rest)
  | None :: rest => longest rest
  end.

(** The lengths [Loader.lengths] collects from a sample. *)
Fixpoint sample_lengths (values : list (option string)) : list Z :=
  match values with
  | [] => []
  | Some s :: rest => Str.len s :: sample_lengths rest
  | None :: rest => sample_lengths rest
  end.

(** ** Loader states *)

(** The state with one more log record. *)
Definition logged {DB : Type} (lvl : Loader.Level) (msg : string) (s : Loader.State DB)
  : Loader.State DB :=
  Loader.mkState (Loader.db s) (Loader.log s ++ [Loader.mkLog lvl msg]).

(** The driver raises [e] in the course of a connection block that asks for
    a connection, executes one statement and then makes one more call of
    the driver ([next]: the commit, or the fetch of the first field): at
    [connect], at [execute] or at that call.  The last argument is the
    database as the block leaves it: the connection, once granted, has been
    given back. *)
Inductive driver_raises {DB A : Type} (drv : Loader.Driver DB) (pool_alias sql : string)
    (next : DB → Result A * DB) (d : DB) (e : PyExc) : DB → Prop :=
  | raises_at_connect d1 :
      Loader.connect drv pool_alias d = (Raise e, d1) →
      driver_raises drv pool_alias sql next d e d1
  | raises_at_execute d1 d2 :
      Loader.connect drv pool_alias d = (Ok tt, d1) →
      Loader.execute drv sql d1 = (Raise e, d2) →
      driver_raises drv pool_alias sql next d e (Loader.release drv d2)
  | raises_after_execute d1 d2 d3 :
      Loader.connect drv pool_alias d = (Ok tt, d1) →
      Loader.execute drv sql d1 = (Ok tt, d2) →
      next d2 = (Raise e, d3) →
      driver_raises drv pool_alias sql next d e (Loader.release drv d3).

(** ** Example collaborators *)

(** A driver over a database that only remembers the statements it ran.
    Connections are granted; [execute] fails with the given exception when
    there is one, and so does [pool.close]. *)
Definition scripted_driver (failure : option PyExc) : Loader.Driver (list string) :=
  Loader.mkDriver (list string)
    (λ _ d, (Ok tt, d))
    (λ d, d)
    (λ sql d, match failure with
              | Some e => (Raise e, d)
              | None => (Ok tt, (d ++ [sql])%list)
              end)
    (λ d, (Ok tt, d))
    (λ d, (Ok (Z.of_nat (length d)), d))
    (λ _ d, (Ok true, d))
    (λ _ d, match failure with
            | Some e => (Raise e, d)
            | None => (Ok tt, d)
            end).

(** The error the database gives for a table that does not exist. *)
Definition missing_table : PyExc :=
  mkExc DatabaseError "ORA-00942: table or view does not exist".

(** The error of the driver for a pool that cannot be closed yet.  It is an
    InterfaceError: the driver's errors numbered DPY-1000 to DPY-1999 are. *)
Definition busy_pool : PyExc :=
  mkExc InterfaceError
    "DPY-1005: connection pool cannot be closed because connections are busy".

(** A loader state before any call. *)
Definition fresh_state : Loader.State (list string) := Loader.mkState [] [].

(** A clock, a random source and an address joiner for the examples. *)
Definition example_uuid4 (n : nat) : string := "00000000-0000-4000-8000-000000000000".
Definition example_now (n : nat) : string := "2025-08-16 12:00:00.000+00:00".
Definition example_urljoin (base e : string) : string := base ++ e.

(** A server that answers every request with a status and a JSON body. *)
Definition server (status : Z) (body : json) (url : string) (t : nat) : Result Response :=
  Ok (mkResponse status 123000 (Ok body)).

(** The two events of the package's own test, with a payload field that is
    named like a stamp column. *)
Definition example_events : json :=
  JList [JDict [("id", JInt 1); ("active", JBool true); ("request_id", JStr "a")];
         JDict [("id", JInt 2); ("active", JBool false); ("request_id", JStr "b")]].

(** The frame the constructor makes of [example_events]. *)
Definition example_events_frame : Frame.DataFrame :=
  Frame.mkFrame 2
    [Frame.mkSeries "id" Frame.Int64 [JInt 1; JInt 2];
     Frame.mkSeries "active" Frame.Boolean [JBool true; JBool false];
     Frame.mkSeries "request_id" Frame.String_ [JStr "a"; JStr "b"]].

(** A constructor that knows that one payload and refuses any other. *)
Definition example_constructor (data : json) : Result Frame.DataFrame :=
  match data with
  | JList (JDict (("id", JInt 1) :: _) :: _) => Ok example_events_frame
  | _ => Raise (mkExc TypeError "DataFrame constructor")
  end.

(** A frame with a Boolean column that has a null, and a nested column. *)
Definition example_mixed_frame : Frame.DataFrame :=
  Frame.mkFrame 3
    [Frame.mkSeries "id" Frame.Int64 [JInt 1; JInt 2; JInt 3];
     Frame.mkSeries "active" Frame.Boolean [JBool true; JBool false; JNull];
     Frame.mkSeries "tags" (Frame.List Frame.String_)
       [JList [JStr "x"]; JList []; JNull]].

(** The world before any request. *)
Definition first_world : World := mkWorld 0 [].

(** The stamp [get] returns in [first_world] from a server that answers
    with [status] and [body]. *)
Definition example_stamp (status : Z) (body : json) : gmap string StampVal :=
  <["response_elapsed_ms" := SVal (JFloat (mkFloat 123000 1000))]>
    (<["response_code" := SVal (JInt status)]>
      (<["response" := SResponse (mkResponse status 123000 (Ok body))]>
        (<["request_time" := SVal (JStr (example_now 0))]>
          (<["request_id" := SVal (JStr (example_uuid4 0))]> ∅)))).

(** * The rest of the package *)

(** ** More of [str] *)

Module StrMore.

(** [c.lower()] for one character of the ASCII range. *)
Definition lower_ascii (c : ascii) : ascii :=
  let n := nat_of_ascii c in
  if ((65 <=? n)%nat && (n <=? 90)%nat)%bool then ascii_of_nat (n + 32) else c.

(** [s.lower()]. *)
Fixpoint lower (s : string) : string :=
  match s with
  | EmptyString => EmptyString
  | String c s' => String (lower_ascii c) (lower s')
  end.

(** The double quote as a character. *)
Definition quote_char : ascii := ascii_of_nat 34.

(** [s.lstrip(QUOTE)]: the quotes in front go. *)
Fixpoint lstrip_quotes (s : string) : string :=
  match s with
  | EmptyString => EmptyString
  | String c s' => if Ascii.eqb c quote_char then lstrip_quotes s' else s
  end.

(** [s.rstrip(QUOTE)]: the quotes at the end go. *)
Fixpoint rstrip_quotes (s : string) : string :=
  match s with
  | EmptyString => EmptyString
  | String c s' =>
      match rstrip_quotes s' with
      | EmptyString => if Ascii.eqb c quote_char then EmptyString else String c EmptyString
      | rest => String c rest
      end
  end.

(** [s.strip(QUOTE)]. *)
Definition strip_quotes (s : string) : string := rstrip_quotes (lstrip_quotes s).

(** [str(b)] for a [bool]. *)
Definition of_bool (b : bool) : string := if b then "True" else "False".

End StrMore.

(** ** utils.py: [id_generator] *)

Module Random.

(** What a draw gives: a value, or the [IndexError] of the library. *)
Inductive Drawn (A : Type) :=
  | Chosen (a : A)
  | IndexError (msg : string).
Arguments Chosen {A} a.
Arguments IndexError {A} msg.

Section Choice.

(** The random source: [randbelow seed n] is the draw made in state [seed]
    for a bound [n]; every draw moves the state on by one. *)
Variable randbelow : nat → nat → nat.

(** [random.choice(chars)]: an empty sequence is refused, and so is an index
    outside the sequence. *)
Definition choice (chars : string) (seed : nat) : Drawn ascii * nat :=
  match chars with
  | EmptyString => (IndexError "Cannot choose from an empty sequence", seed)
  | _ =>
      match String.get (randbelow seed (String.length chars)) chars with
      | Some c => (Chosen c, S seed)
      | None => (IndexError "string index out of range", S seed)
      end
  end.

(** The characters of [random.choice(chars) for _ in range(n)], joined. *)
Fixpoint choices (n : nat) (chars : string) (seed : nat) : Drawn string * nat :=
  match n with
  | O => (Chosen EmptyString, seed)
  | S n' =>
      match choice chars seed with
      | (IndexError msg, seed') => (IndexError msg, seed')
      | (Chosen c, seed') =>
          match choices n' chars seed' with
          | (IndexError msg, seed'') => (IndexError msg, seed'')
          | (Chosen rest, seed'') => (Chosen (String c rest), seed'')
          end
      end
  end.

(** [id_generator(size, chars)]; [range(size)] is empty for a negative size. *)
Definition id_generator (size : Z) (chars : string) (seed : nat) : Drawn string * nat :=
  choices (Z.to_nat size) chars seed.

End Choice.

(** The defaults of [id_generator]. *)
Definition default_size : Z := 6.
Definition ascii_uppercase : string := "ABCDEFGHIJKLMNOPQRSTUVWXYZ".

End Random.

(** ** loaders.py: the other methods of the loader *)

Module LoaderMore.
Import Arrow Loader.

(** What else the driver offers: [cursor.execute] with named binds,
    [cursor.executemany] (its result is [cursor.rowcount]) and
    [conn.is_healthy]. *)
Record DriverMore (DB : Type) := mkDriverMore {
  execute_binds : string → list (string * string) → DB → Result unit * DB;
  executemany : string → Table → DB → Result Z * DB;
  is_healthy : DB → Result bool * DB
}.
Arguments execute_binds {DB} _ _ _ _.
Arguments executemany {DB} _ _ _ _.
Arguments is_healthy {DB} _ _.

(** Twenty spaces: what a backslash at the end of a line leaves of the
    indentation of the next one inside a string. *)
Definition continuation : string := "                    ".

(** The pieces of the statement of [insert_data] and [upsert_data]. *)
Definition quoted_upper (c : string) : string := dquote ++ Str.upper c ++ dquote.

(** [f":{i + 1}" for i in range(n)]. *)
Definition placeholders (n : nat) : list string :=
  map (λ i, ":" ++ Str.of_Z (Z.of_nat i + 1)) (seq 0 n).

(** The statement [insert_data] builds. *)
Definition insert_sql (data : Table) (table_name : string) : string :=
  let cols := Str.join ", " (map quoted_upper (column_names data)) in
  let marks := Str.join "," (placeholders (length (column_names data))) in
  "INSERT INTO " ++ table_name ++ " (" ++ cols ++ ") VALUES (" ++ marks ++ ")".

(** [enumerate(cols)]. *)
Definition enumerate {A} (l : list A) : list (nat * A) := combine (seq 0 (length l)) l.

(** The assignments of [UPDATE SET]: one for each quoted column whose name
    without the quotes is not among the key columns. *)
Definition update_set_terms (cols : list string) (key_columns : list string) : list string :=
  map (λ p, snd p ++ " = :" ++ Str.of_Z (Z.of_nat (fst p) + 1))
      (filter (λ p, StrMore.strip_quotes (snd p) ∉ key_columns) (enumerate cols)).

(** The conditions of [ON]. *)
Definition on_condition_terms (key_columns : list string) : list string :=
  map (λ col, "target." ++ quoted_upper col ++ " = source." ++ quoted_upper col) key_columns.

(** The statement [upsert_data] builds. *)
Definition upsert_sql (data : Table) (table_name : string) (key_columns : list string)
  : string :=
  let cols := map quoted_upper (column_names data) in
  let insert_cols := Str.join ", " cols in
  let insert_values := Str.join "," (placeholders (length (column_names data))) in
  let update_set := Str.join ", " (update_set_terms cols key_columns) in
  let on_conditions := Str.join " AND " (on_condition_terms key_columns) in
  newline
  ++ "                MERGE INTO " ++ table_name ++ " target" ++ newline
  ++ "                USING (SELECT " ++ insert_values ++ " FROM dual) source ("
  ++ insert_cols ++ ")" ++ newline
  ++ "                ON (" ++ on_conditions ++ ")" ++ newline
  ++ "                WHEN MATCHED THEN" ++ newline
  ++ "                    UPDATE SET " ++ update_set ++ newline
  ++ "                WHEN NOT MATCHED THEN" ++ newline
  ++ "                    INSERT (" ++ insert_cols ++ ") VALUES (" ++ insert_values ++ ")"
  ++ newline
  ++ "            ".

Section Methods.
Context {DB : Type}.
Variable drv : Driver DB.
Variable more : DriverMore DB.
Variable pool_alias : string.

(** [self.dsn] and [self.user], as given. *)
Variable dsn : string.
Variable user : string.

(** The elapsed time of a statement as the log shows it, [f"{t:.2f}"]; the
    clock is not part of the state. *)
Variable seconds : string.

Notation "x <~ m ;; k" := (bind m (λ x, k))
  (at level 100, m at next level, right associativity).
Notation "m ;;; k" := (bind m (λ _, k))
  (at level 100, right associativity).

(** The [with] block of [test_connection]. *)
Definition test_connection_block : Action bool :=
  with_connection drv pool_alias
    (healthy <~ call (is_healthy more) ;;
     logger_info ("Connection healthy: " ++ StrMore.of_bool healthy) ;;;
     ret healthy).

(** [OracleDBLoader.test_connection]. *)
Definition test_connection : Action bool :=
  logger_info ("Testing connection to Oracle DB at " ++ dsn) ;;;
  try_except_database_error
    test_connection_block
    (λ e, logger_error ("Connection failed: " ++ exc_msg e) ;;; ret false).

(** The [with] block of [insert_data]. *)
Definition insert_block (data : Table) (table_name : string) : Action unit :=
  with_connection drv pool_alias
    (let sql := insert_sql data table_name in
     rowcount <~ call (executemany more sql data) ;;
     call (commit drv) ;;;
     logger_info ("Inserted " ++ Str.of_Z rowcount ++ " rows into " ++ table_name
                  ++ " in " ++ continuation ++ seconds ++ " seconds") ;;;
     logger_info ("Executed SQL: " ++ sql)).

(** [OracleDBLoader.insert_data]: no handler. *)
Definition insert_data (data : Table) (table_name : string) : Action unit :=
  logger_info ("Inserting data into table " ++ table_name) ;;;
  insert_block data table_name.

(** The query of [check_table_exists]. *)
Definition exists_sql : string :=
  "SELECT COUNT(*) FROM all_tables WHERE table_name " ++ continuation
  ++ "= :tbl_name AND owner = :owner".

(** [OracleDBLoader.check_table_exists]: no handler. *)
Definition check_table_exists (table_name : string) : Action bool :=
  logger_info ("Checking if table " ++ table_name ++ " exists") ;;;
  with_connection drv pool_alias
    (call (execute_binds more exists_sql
             [("tbl_name", Str.upper table_name); ("owner", Str.upper user)]) ;;;
     count <~ call (fetchone0 drv) ;;
     let found := 0 <? count in
     logger_info ("Table " ++ table_name ++ " exists: " ++ StrMore.of_bool found) ;;;
     ret found).

(** [OracleDBLoader.rebuild_table]. *)
Definition rebuild_table (table_name : string) (data : Table) : Action unit :=
  found <~ check_table_exists table_name ;;
  (if found : bool then drop_table drv pool_alias table_name else ret tt) ;;;
  create_table drv pool_alias table_name data ;;;
  insert_data data table_name.

(** [OracleDBLoader.reload_table]. *)
Definition reload_table (table_name : string) (data : Table) : Action unit :=
  found <~ check_table_exists table_name ;;
  (if found : bool then truncate_table drv pool_alias table_name else ret tt) ;;;
  insert_data data table_name.

(** The [with] block of [upsert_data]. *)
Definition upsert_block (data : Table) (table_name : string) (key_columns : list string)
  : Action unit :=
  with_connection drv pool_alias
    (let sql := upsert_sql data table_name key_columns in
     rowcount <~ call (executemany more sql data) ;;
     call (commit drv) ;;;
     logger_info ("Upserted " ++ Str.of_Z rowcount ++ " rows into " ++ table_name
                  ++ " in " ++ continuation ++ seconds ++ " seconds") ;;;
     logger_info ("Executed SQL: " ++ sql)).

(** [OracleDBLoader.upsert_data]: no handler. *)
Definition upsert_data (data : Table) (table_name : string) (key_columns : list string)
  : Action unit :=
  logger_info ("Upserting data into table " ++ table_name) ;;;
  upsert_block data table_name key_columns.

End Methods.

(** *** [BaseLoader.read_data] *)

Section ReadData.
Context {DB Frame_ : Type}.

(** The readers behind [read_data]: [pd.read_csv], [pd.read_excel],
    [pd.DataFrame(json.load(open(...)))], each on the text of the path; the
    text of [df.shape]; and [pa.table]. *)
Variable read_csv : string → Result Frame_.
Variable read_excel : string → Result Frame_.
Variable read_json : string → Result Frame_.
Variable shape : Frame_ → string.
Variable pa_table : Frame_ → Result Table.

(** A call without side effect on the state. *)
Definition pure_call {A} (r : Result A) : @Action DB A := λ s, (r, s).

(** [BaseLoader.read_data(source)], on the text of the path and its suffix. *)
Definition read_data (source suffix : string) : @Action DB Table :=
  bind (logger_info ("Reading data from " ++ source)) (λ _,
  bind (if String.eqb (StrMore.lower suffix) ".csv" then pure_call (read_csv source)
        else if String.eqb (StrMore.lower suffix) ".xlsx" then pure_call (read_excel source)
        else if String.eqb (StrMore.lower suffix) ".json" then pure_call (read_json source)
        else bind (logger_error ("Unsupported file format: " ++ suffix)) (λ _,
             raise (mkExc ValueError ("Unsupported file format: " ++ suffix)))) (λ df,
  bind (logger_info ("Data read successfully with shape " ++ shape df)) (λ _,
  pure_call (pa_table df)))).

End ReadData.

End LoaderMore.

(** ** Vocabulary and examples for the rest of the package *)

(** What a run of the generator has requested: the requests made are the
    first [n] of [urls], and all of them when the run returned. *)
Definition requested_prefix {A} (urls : list string) (w : World)
    (run : Result A * World) : Prop :=
  ∃ n, fetched (snd run) = (fetched w ++ take n urls)%list
       ∧ (is_ok (fst run) = true → n = length urls).

(** Every character of [s] occurs in [chars]. *)
Fixpoint drawn_from (chars : string) (s : string) : Prop :=
  match s with
  | EmptyString => True
  | String c s' => (∃ i, String.get i chars = Some c) ∧ drawn_from chars s'
  end.

(** A draw generator that stays below its bound. *)
Definition example_randbelow (seed n : nat) : nat := (7 * seed + 3) mod n.

(** The lines of the column definitions of a [CREATE TABLE] statement. *)
Definition column_lines (table : Arrow.Table) : string :=
  Str.join ("," ++ newline)
    (map (λ c, "    " ++ dquote ++ Str.upper (Arrow.name (Arrow.field c)) ++ dquote ++ " "
               ++ Loader.field_to_oracle_type (Arrow.type (Arrow.field c))
                    (Some (Arrow.to_pylist c)))
         table).

(** No character of the string is a double quote. *)
Fixpoint quote_free (s : string) : Prop :=
  match s with
  | EmptyString => True
  | String c s' => c ≠ StrMore.quote_char ∧ quote_free s'
  end.

(** [enumerate] from a first index on. *)
Definition enumerate_from {A} (start : nat) (l : list A) : list (nat * A) :=
  combine (seq start (length l)) l.

(** The assignment [UPDATE SET] has for the column at a position. *)
Definition update_term (p : nat * string) : string :=
  LoaderMore.quoted_upper (snd p) ++ " = :" ++ Str.of_Z (Z.of_nat (fst p) + 1).

(** A loader that records its calls and refuses one table. *)
Definition refusing_loader (refused : string) (table_name : string) (data : Arrow.Table)
    (calls : list (string * Arrow.Table)) : Result unit * list (string * Arrow.Table) :=
  if String.eqb table_name refused then (Raise missing_table, calls)
  else Pipeline.recording_loader table_name data calls.

(** The rest of a scripted driver: the query with binds is recorded or not,
    [executemany] fails with the given exception when there is one, and the
    connection is healthy. *)
Definition scripted_more (recorded : bool) (failure : option PyExc)
  : LoaderMore.DriverMore (list string) :=
  LoaderMore.mkDriverMore (list string)
    (λ sql _ d, (Ok tt, if recorded then (d ++ [sql])%list else d))
    (λ sql data d, match failure with
                   | Some e => (Raise e, d)
                   | None => (Ok (Z.of_nat (length data)), (d ++ [sql])%list)
                   end)
    (λ d, (Ok true, d)).

(** A driver that accepts every statement and records it, with or without
    binds, and whose every fetch answers the given count. *)
Definition recording_driver (count : Z) : Loader.Driver (list string) :=
  Loader.mkDriver (list string)
    (λ _ d, (Ok tt, d))
    (λ d, d)
    (λ sql d, (Ok tt, (d ++ [sql])%list))
    (λ d, (Ok tt, d))
    (λ d, (Ok count, d))
    (λ _ d, (Ok true, d))
    (λ _ d, (Ok tt, d)).

Definition recording_more : LoaderMore.DriverMore (list string) :=
  LoaderMore.mkDriverMore (list string)
    (λ sql _ d, (Ok tt, (d ++ [sql])%list))
    (λ sql data d, (Ok (Z.of_nat (length data)), (d ++ [sql])%list))
    (λ d, (Ok true, d)).

(** Readers for the examples: every file holds the same three rows. *)
Definition example_reader (source : string) : Result nat := Ok 3%nat.
Definition example_shape (rows : nat) : string := "(" ++ Str.of_Z (Z.of_nat rows) ++ ", 3)".
Definition example_pa_table (rows : nat) : Result Arrow.Table := Ok [].

(** A server whose answer has code 200 and a body that is not JSON. *)
Definition unreadable : PyExc := mkExc JSONDecodeError "Expecting value".

Definition unreadable_response : Response := mkResponse 200 123000 (Raise unreadable).

Definition unreadable_server (url : string) (t : nat) : Result Response :=
  Ok unreadable_response.

(** The stamp [get] returns in [first_world] from that server. *)
Definition unreadable_stamp : gmap string StampVal :=
  <["response_elapsed_ms" := SVal (JFloat (mkFloat 123000 1000))]>
    (<["response_code" := SVal (JInt 200)]>
      (<["response" := SResponse unreadable_response]>
        (<["request_time" := SVal (JStr (example_now 0))]>
          (<["request_id" := SVal (JStr (example_uuid4 0))]> ∅)))).

(** The address of the examples. *)
Definition example_url : string := "https://fantasy.premierleague.com/api/fixtures".

(** * Properties *)

(** ** Table names (pipeline.py) *)

Lemma load_items_recorded to_arrow table_prefix items calls :
  Pipeline.load_items to_arrow Pipeline.recording_loader table_prefix items calls
  = (Ok tt, (calls ++ expected_calls to_arrow table_prefix items)%list).
Proof.
  revert calls. induction items as [|[k df] items IH]; intros calls; simpl.
  - by rewrite app_nil_r.
  - unfold Pipeline.recording_loader at 1. rewrite IH. by rewrite <- app_assoc.
Qed.

(** C1 (as the code has it).  [rebuild] and [reload] hand the loader, item by
    item and in order, the table name made of the prefix exactly as it was
    given, an underscore and the upper-cased logical name; with the default
    prefix "FPL" the logical name "Events" gives "FPL_EVENTS". *)
Theorem table_name_prefix_verbatim :
  ∀ (to_arrow : Frame.DataFrame → Arrow.Table) (table_prefix : string)
    (items : list (string * Frame.DataFrame)) (calls : list (string * Arrow.Table)),
    Pipeline.rebuild to_arrow Pipeline.recording_loader table_prefix items calls
    = (Ok tt, (calls ++ expected_calls to_arrow table_prefix items)%list)
    ∧ Pipeline.reload to_arrow Pipeline.recording_loader table_prefix items calls
      = (Ok tt, (calls ++ expected_calls to_arrow table_prefix items)%list)
    ∧ map fst (expected_calls to_arrow table_prefix items)
      = map (λ item, table_prefix ++ "_" ++ Str.upper (fst item)) items
    ∧ map fst (expected_calls to_arrow Pipeline.default_prefix [("Events", Frame.empty)])
      = ["FPL_EVENTS"].
Proof.
  intros to_arrow table_prefix items calls. unfold Pipeline.rebuild, Pipeline.reload.
  rewrite !load_items_recorded. repeat split.
  unfold expected_calls. rewrite map_map. reflexivity.
Qed.

(** C1, the claim as stated, fails: the prefix "fpl" reaches the loader in
    lower case, so the table name is "fpl_EVENTS" and not
    uppercase("fpl") + "_" + uppercase("Events") = "FPL_EVENTS". *)
Lemma table_name_prefix_not_uppercased :
  let calls :=
    snd (Pipeline.rebuild (λ _, []) Pipeline.recording_loader "fpl"
           [("Events", Frame.empty)] []) in
  map fst calls = ["fpl_EVENTS"]
  ∧ map fst calls ≠ [Str.upper "fpl" ++ "_" ++ Str.upper "Events"]
  ∧ Str.upper "fpl" ++ "_" ++ Str.upper "Events" = "FPL_EVENTS".
Proof. vm_compute. repeat split. discriminate. Qed.

(** ** Schema inference (loaders.py) *)

Lemma fold_left_max ns n :
  0 ≤ n → fold_left Z.max ns n = Z.max n (foldr Z.max 0 ns).
Proof.
  revert n. induction ns as [|m ns IH]; intros n Hn; simpl; [lia|].
  rewrite IH by lia. lia.
Qed.

Lemma max_default0_foldr ns :
  Forall (λ n, 0 ≤ n) ns → Loader.max_default0 ns = foldr Z.max 0 ns.
Proof.
  destruct 1 as [|n ns Hn _]; simpl; [done|]. by apply fold_left_max.
Qed.

Lemma lengths_sample values : Loader.lengths (sample values) = Ok (sample_lengths values).
Proof.
  induction values as [|[s|] values IH]; simpl; [done | | done].
  fold (sample values). by rewrite IH.
Qed.

Lemma sample_lengths_nonneg values : Forall (λ n, 0 ≤ n) (sample_lengths values).
Proof.
  induction values as [|[s|] values IH]; simpl; [constructor | | done].
  constructor; [unfold Str.len; lia | done].
Qed.

Lemma foldr_sample_lengths values : foldr Z.max 0 (sample_lengths values) = longest values.
Proof. induction values as [|[s|] values IH]; simpl; congruence. Qed.

Lemma sampled_max_len_longest values :
  Loader.sampled_max_len (Some (sample values)) = longest values.
Proof.
  unfold Loader.sampled_max_len. rewrite lengths_sample.
  rewrite max_default0_foldr by apply sample_lengths_nonneg.
  apply foldr_sample_lengths.
Qed.

(** C2 (as the code has it).  For a string column with sampled values the
    bound is max(255, 3 x the longest non-null sampled length); the type is
    the variable-length character type of that bound while the bound is at
    most 4000 and the large-text type beyond.  A longest value of 50
    characters gives the bound 255; the longest value that still gives a
    bounded type has 1333 characters; 2000 and 10000 characters give the
    large-text type. *)
Theorem string_column_bound :
  (∀ values : list (option string),
     Loader.field_to_oracle_type Arrow.String_ (Some (sample values))
     = let bound := Z.max 255 (3 * longest values) in
       if bound <=? 4000 then "VARCHAR2(" ++ Str.of_Z bound ++ ")" else "CLOB")
  ∧ Loader.field_to_oracle_type Arrow.String_
      (Some (sample [Some (Str.replicate_char 50 "a"); None; Some "ab"]))
    = "VARCHAR2(255)"
  ∧ Loader.field_to_oracle_type Arrow.String_
      (Some (sample [Some (Str.replicate_char 1333 "a")]))
    = "VARCHAR2(3999)"
  ∧ Loader.field_to_oracle_type Arrow.String_
      (Some (sample [Some (Str.replicate_char 1334 "a")]))
    = "CLOB"
  ∧ Loader.field_to_oracle_type Arrow.String_
      (Some (sample [Some (Str.replicate_char 2000 "a")]))
    = "CLOB"
  ∧ Loader.field_to_oracle_type Arrow.String_
      (Some (sample [Some (Str.replicate_char 10000 "a")]))
    = "CLOB".
Proof.
  split; [|by vm_compute].
  intros values. unfold Loader.field_to_oracle_type.
  rewrite sampled_max_len_longest.
  replace (longest values * 3) with (3 * longest values) by lia.
  simpl. destruct (Z.leb_spec (Z.max 255 (3 * longest values)) 4000) as [Hle|Hgt].
  - by rewrite Z.min_l by done.
  - done.
Qed.

(** C2, the claim as stated, fails at a longest sampled value of 2000
    characters: the bound is 6000, which exceeds 4000, so the column gets
    the large-text type and not a bound of 4000. *)
Lemma string_column_2000_is_large_text :
  Loader.field_to_oracle_type Arrow.String_
    (Some [JStr (Str.replicate_char 2000 "a")]) = "CLOB"
  ∧ Loader.field_to_oracle_type Arrow.String_
      (Some [JStr (Str.replicate_char 2000 "a")]) ≠ "VARCHAR2(4000)".
Proof. vm_compute. split; [done | discriminate]. Qed.

(** C7.  A decimal column whose precision [p] and scale [s] can be read gets
    the fixed-point type NUMBER(p,s), for instance NUMBER(10,2); when either
    cannot be read the column gets the unconstrained NUMBER, and no
    exception leaves the function. *)
Theorem decimal_column_type :
  (∀ (p s : Z) (column : option (list json)),
     Loader.field_to_oracle_type (Arrow.Decimal (Some p) (Some s)) column
     = "NUMBER(" ++ Str.of_Z p ++ "," ++ Str.of_Z s ++ ")")
  ∧ (∀ (scale : option Z) (column : option (list json)),
       Loader.field_to_oracle_type (Arrow.Decimal None scale) column = "NUMBER")
  ∧ (∀ (precision : option Z) (column : option (list json)),
       Loader.field_to_oracle_type (Arrow.Decimal precision None) column = "NUMBER")
  ∧ Loader.field_to_oracle_type (Arrow.Decimal (Some 10) (Some 2)) None = "NUMBER(10,2)"
  ∧ Loader.generate_oracle_ddl
      [Arrow.mkColumn (Arrow.mkField "price" (Arrow.Decimal (Some 10) (Some 2))) [];
       Arrow.mkColumn (Arrow.mkField "qty" (Arrow.Decimal None None)) []] "t"
    = "CREATE TABLE " ++ dquote ++ "T" ++ dquote ++ " (" ++ newline
      ++ "    " ++ dquote ++ "PRICE" ++ dquote ++ " NUMBER(10,2)," ++ newline
      ++ "    " ++ dquote ++ "QTY" ++ dquote ++ " NUMBER" ++ newline ++ ")".
Proof.
  repeat split.
  - intros precision column. by destruct precision.
Qed.

(** ** Database errors (loaders.py) *)

(** A guarded block whose handler logs and raises again: a database error of
    the block leaves with one more ERROR record. *)
Lemma reraise_database_error {DB A} (block : @Loader.Action DB A) (prefix : string) s e s1 :
  is_database_error e = true →
  block s = (Raise e, s1) →
  Loader.try_except_database_error block
    (λ e, Loader.bind (Loader.logger_error (prefix ++ exc_msg e)) (λ _, Loader.raise e)) s
  = (Raise e, logged Loader.ERROR (prefix ++ exc_msg e) s1).
Proof.
  intros Hdb Hblock. unfold Loader.try_except_database_error. by rewrite Hblock, Hdb.
Qed.

(** Such a guarded block returns a value only when the block returned it. *)
Lemma reraise_returns_block_value {DB A} (block : @Loader.Action DB A)
    (prefix : string) s v s1 :
  Loader.try_except_database_error block
    (λ e, Loader.bind (Loader.logger_error (prefix ++ exc_msg e)) (λ _, Loader.raise e)) s
  = (Ok v, s1) →
  block s = (Ok v, s1).
Proof.
  unfold Loader.try_except_database_error. destruct (block s) as [[a|e] s']; [done|].
  destruct (is_database_error e); [|done]. discriminate.
Qed.

(** What a statement block makes of a failure of the driver: the exception
    leaves the block, the log is as it was, and the connection, once
    granted, has been given back. *)
Lemma statement_block_raises {DB A B} (drv : Loader.Driver DB) (pool_alias sql : string)
    (next : DB → Result A * DB) (rest : A → @Loader.Action DB B) s e d' :
  driver_raises drv pool_alias sql next (Loader.db s) e d' →
  Loader.with_connection drv pool_alias
    (Loader.bind (Loader.call (Loader.execute drv sql))
       (λ _, Loader.bind (Loader.call next) rest)) s
  = (Raise e, Loader.mkState d' (Loader.log s)).
Proof.
  intros H. unfold Loader.with_connection, Loader.bind, Loader.call.
  destruct H as [d1 Hc|d1 d2 Hc He|d1 d2 d3 Hc He Hn].
  - by rewrite Hc.
  - rewrite Hc. simpl. by rewrite He.
  - rewrite Hc. simpl. rewrite He. simpl. by rewrite Hn.
Qed.

(** A statement block returns only when the driver granted the connection,
    executed the statement and answered the call after it. *)
Lemma statement_block_returns {DB A B} (drv : Loader.Driver DB) (pool_alias sql : string)
    (next : DB → Result A * DB) (rest : A → @Loader.Action DB B) s v s1 :
  Loader.with_connection drv pool_alias
    (Loader.bind (Loader.call (Loader.execute drv sql))
       (λ _, Loader.bind (Loader.call next) rest)) s
  = (Ok v, s1) →
  ∃ d1 d2 a d3 s2,
    Loader.connect drv pool_alias (Loader.db s) = (Ok tt, d1)
    ∧ Loader.execute drv sql d1 = (Ok tt, d2)
    ∧ next d2 = (Ok a, d3)
    ∧ rest a (Loader.mkState d3 (Loader.log s)) = (Ok v, s2)
    ∧ s1 = Loader.mkState (Loader.release drv (Loader.db s2)) (Loader.log s2).
Proof.
  unfold Loader.with_connection, Loader.bind, Loader.call.
  destruct (Loader.connect drv pool_alias (Loader.db s)) as [[[]|e1] d1] eqn:Hc; [|done].
  simpl.
  destruct (Loader.execute drv sql d1) as [[[]|e2] d2] eqn:He; [|done]. simpl.
  destruct (next d2) as [[a|e3] d3] eqn:Hn; [|done]. simpl.
  destruct (rest a (Loader.mkState d3 (Loader.log s))) as [r s2] eqn:Hrest.
  intros [= -> <-]. by exists d1, d2, a, d3, s2.
Qed.

(** A method made of a first INFO record and a guarded statement block whose
    handler logs and raises again: a database error of the driver reaches
    the caller after one ERROR record. *)
Lemma guarded_statement_raises {DB A B} (drv : Loader.Driver DB) (pool_alias sql : string)
    (next : DB → Result A * DB) (rest : A → @Loader.Action DB B)
    (start prefix : string) s e d' :
  is_database_error e = true →
  driver_raises drv pool_alias sql next (Loader.db s) e d' →
  Loader.try_except_database_error
    (Loader.with_connection drv pool_alias
       (Loader.bind (Loader.call (Loader.execute drv sql))
          (λ _, Loader.bind (Loader.call next) rest)))
    (λ e, Loader.bind (Loader.logger_error (prefix ++ exc_msg e)) (λ _, Loader.raise e))
    (logged Loader.INFO start s)
  = (Raise e,
     Loader.mkState d'
       (Loader.log s ++ [Loader.mkLog Loader.INFO start;
                         Loader.mkLog Loader.ERROR (prefix ++ exc_msg e)])).
Proof.
  intros Hdb Hdrv.
  rewrite (reraise_database_error _ prefix _ e
             (Loader.mkState d' (Loader.log (logged Loader.INFO start s))) Hdb).
  - unfold logged. simpl. by rewrite <- app_assoc.
  - by apply statement_block_raises.
Qed.

(** Such a method returns only what its block made of the driver's answers. *)
Lemma guarded_statement_returns {DB A B} (drv : Loader.Driver DB) (pool_alias sql : string)
    (next : DB → Result A * DB) (rest : A → @Loader.Action DB B)
    (start prefix : string) s v s1 :
  Loader.try_except_database_error
    (Loader.with_connection drv pool_alias
       (Loader.bind (Loader.call (Loader.execute drv sql))
          (λ _, Loader.bind (Loader.call next) rest)))
    (λ e, Loader.bind (Loader.logger_error (prefix ++ exc_msg e)) (λ _, Loader.raise e))
    (logged Loader.INFO start s)
  = (Ok v, s1) →
  ∃ d1 d2 a d3 s2,
    Loader.connect drv pool_alias (Loader.db s) = (Ok tt, d1)
    ∧ Loader.execute drv sql d1 = (Ok tt, d2)
    ∧ next d2 = (Ok a, d3)
    ∧ rest a (Loader.mkState d3 (Loader.log s ++ [Loader.mkLog Loader.INFO start]))
      = (Ok v, s2)
    ∧ s1 = Loader.mkState (Loader.release drv (Loader.db s2)) (Loader.log s2).
Proof.
  intros H. apply reraise_returns_block_value in H.
  by apply statement_block_returns in H.
Qed.

(** [close] is its guarded block run after the first log record. *)
Lemma close_after_first_record {DB} (drv : Loader.Driver DB) pool_alias s :
  Loader.close drv pool_alias s
  = Loader.try_except_database_error (Loader.close_block drv pool_alias)
      (λ e, Loader.logger_error ("Failed to close connection pool: " ++ exc_msg e))
      (logged Loader.INFO "Closing OracleDBLoader and its connection pool" s).
Proof. reflexivity. Qed.

(** What [close] makes of an exception of its block. *)
Lemma close_on_exception {DB} (drv : Loader.Driver DB) pool_alias s e d' :
  Loader.close_block drv pool_alias
    (logged Loader.INFO "Closing OracleDBLoader and its connection pool" s)
  = (Raise e, Loader.mkState d'
                (Loader.log s
                 ++ [Loader.mkLog Loader.INFO
                       "Closing OracleDBLoader and its connection pool"])) →
  Loader.close drv pool_alias s
  = if is_database_error e
    then (Ok tt,
          Loader.mkState d'
            (Loader.log s
             ++ [Loader.mkLog Loader.INFO "Closing OracleDBLoader and its connection pool";
                 Loader.mkLog Loader.ERROR
                   ("Failed to close connection pool: " ++ exc_msg e)]))
    else (Raise e,
          Loader.mkState d'
            (Loader.log s
             ++ [Loader.mkLog Loader.INFO
                   "Closing OracleDBLoader and its connection pool"])).
Proof.
  intros Hblock. rewrite close_after_first_record.
  unfold Loader.try_except_database_error. rewrite Hblock.
  destruct (is_database_error e); [|done].
  unfold Loader.logger_error. simpl. by rewrite <- app_assoc.
Qed.

(** C8.  In [create_table], [drop_table], [truncate_table] and [count_rows],
    a database error the driver raises, be it at [connect], at [execute] or
    at the call after it ([commit]; for [count_rows] the fetch of the
    count), is logged at ERROR level and the same exception then reaches the
    caller, with the connection given back.  None of the four returns
    normally after such an error: a method that returns has had every call
    of the driver answered, and the number [count_rows] returns is the one
    the driver fetched. *)
Theorem database_error_logged_then_reraised :
  ∀ (DB : Type) (drv : Loader.Driver DB) (pool_alias table_name : string)
    (table : Arrow.Table) (s : Loader.State DB),
    (∀ e d',
       is_database_error e = true →
       (driver_raises drv pool_alias (Loader.generate_oracle_ddl table table_name)
          (Loader.commit drv) (Loader.db s) e d' →
        Loader.create_table drv pool_alias table_name table s
        = (Raise e,
           Loader.mkState d'
             (Loader.log s
              ++ [Loader.mkLog Loader.INFO
                    ("Generated DDL: " ++ Loader.generate_oracle_ddl table table_name);
                  Loader.mkLog Loader.ERROR ("Creating table failed: " ++ exc_msg e)])))
       ∧ (driver_raises drv pool_alias ("DROP TABLE " ++ table_name ++ " PURGE")
            (Loader.commit drv) (Loader.db s) e d' →
          Loader.drop_table drv pool_alias table_name s
          = (Raise e,
             Loader.mkState d'
               (Loader.log s
                ++ [Loader.mkLog Loader.INFO ("Dropping table " ++ table_name);
                    Loader.mkLog Loader.ERROR ("Dropping table failed: " ++ exc_msg e)])))
       ∧ (driver_raises drv pool_alias ("TRUNCATE TABLE " ++ table_name)
            (Loader.commit drv) (Loader.db s) e d' →
          Loader.truncate_table drv pool_alias table_name s
          = (Raise e,
             Loader.mkState d'
               (Loader.log s
                ++ [Loader.mkLog Loader.INFO ("Truncating table " ++ table_name);
                    Loader.mkLog Loader.ERROR ("Truncation failed: " ++ exc_msg e)])))
       ∧ (driver_raises drv pool_alias ("SELECT COUNT(*) FROM " ++ table_name)
            (Loader.fetchone0 drv) (Loader.db s) e d' →
          Loader.count_rows drv pool_alias table_name s
          = (Raise e,
             Loader.mkState d'
               (Loader.log s
                ++ [Loader.mkLog Loader.INFO ("Getting row count for table " ++ table_name);
                    Loader.mkLog Loader.ERROR
                      ("Row count retrieval failed: " ++ exc_msg e)]))))
    ∧ (∀ s1,
         Loader.create_table drv pool_alias table_name table s = (Ok tt, s1)
         ∨ Loader.drop_table drv pool_alias table_name s = (Ok tt, s1)
         ∨ Loader.truncate_table drv pool_alias table_name s = (Ok tt, s1) →
         ∃ sql d1 d2 d3,
           Loader.connect drv pool_alias (Loader.db s) = (Ok tt, d1)
           ∧ Loader.execute drv sql d1 = (Ok tt, d2)
           ∧ Loader.commit drv d2 = (Ok tt, d3)
           ∧ Loader.db s1 = Loader.release drv d3)
    ∧ (∀ n s1,
         Loader.count_rows drv pool_alias table_name s = (Ok n, s1) →
         ∃ d1 d2 d3,
           Loader.connect drv pool_alias (Loader.db s) = (Ok tt, d1)
           ∧ Loader.execute drv ("SELECT COUNT(*) FROM " ++ table_name) d1 = (Ok tt, d2)
           ∧ Loader.fetchone0 drv d2 = (Ok n, d3)
           ∧ s1 = Loader.mkState (Loader.release drv d3)
                    (Loader.log s
                     ++ [Loader.mkLog Loader.INFO
                           ("Getting row count for table " ++ table_name);
                         Loader.mkLog Loader.INFO
                           ("Table " ++ table_name ++ " has " ++ Str.of_Z n ++ " rows")])).
Proof.
  intros DB drv pool_alias table_name table s. split; [|split].
  - intros e d' Hdb. repeat split; intros Hdrv.
    + unfold Loader.create_table, Loader.bind at 1. simpl.
      by apply guarded_statement_raises.
    + unfold Loader.drop_table, Loader.bind at 1. simpl.
      by apply guarded_statement_raises.
    + unfold Loader.truncate_table, Loader.bind at 1. simpl.
      by apply guarded_statement_raises.
    + unfold Loader.count_rows, Loader.bind at 1. simpl.
      by apply guarded_statement_raises.
  - intros s1 [H|[H|H]].
    + unfold Loader.create_table, Loader.bind at 1 in H. simpl in H.
      apply guarded_statement_returns in H
        as (d1 & d2 & [] & d3 & s2 & Hc & He & Hn & Hrest & ->).
      injection Hrest as <-. by eexists _, d1, d2, d3.
    + unfold Loader.drop_table, Loader.bind at 1 in H. simpl in H.
      apply guarded_statement_returns in H
        as (d1 & d2 & [] & d3 & s2 & Hc & He & Hn & Hrest & ->).
      injection Hrest as <-. by eexists _, d1, d2, d3.
    + unfold Loader.truncate_table, Loader.bind at 1 in H. simpl in H.
      apply guarded_statement_returns in H
        as (d1 & d2 & [] & d3 & s2 & Hc & He & Hn & Hrest & ->).
      injection Hrest as <-. by eexists _, d1, d2, d3.
  - intros n s1 H. unfold Loader.count_rows, Loader.bind at 1 in H. simpl in H.
    apply guarded_statement_returns in H
      as (d1 & d2 & a & d3 & s2 & Hc & He & Hn & Hrest & ->).
    unfold Loader.bind, Loader.logger_info, Loader.ret in Hrest. simpl in Hrest.
    injection Hrest as -> <-. exists d1, d2, d3. simpl. by rewrite <- app_assoc.
Qed.

(** Witness of C8: against a database that answers every statement with
    ORA-00942, each of the four methods logs the error and raises it. *)
Lemma database_error_logged_then_reraised_witness :
  is_database_error missing_table = true
  ∧ Loader.create_table (scripted_driver (Some missing_table)) "POOL" "FPL_EVENTS" []
      fresh_state
    = (Raise missing_table,
       Loader.mkState []
         [Loader.mkLog Loader.INFO
            ("Generated DDL: " ++ Loader.generate_oracle_ddl [] "FPL_EVENTS");
          Loader.mkLog Loader.ERROR
            "Creating table failed: ORA-00942: table or view does not exist"])
  ∧ Loader.drop_table (scripted_driver (Some missing_table)) "POOL" "FPL_EVENTS"
      fresh_state
    = (Raise missing_table,
       Loader.mkState []
         [Loader.mkLog Loader.INFO "Dropping table FPL_EVENTS";
          Loader.mkLog Loader.ERROR
            "Dropping table failed: ORA-00942: table or view does not exist"])
  ∧ Loader.truncate_table (scripted_driver (Some missing_table)) "POOL" "FPL_EVENTS"
      fresh_state
    = (Raise missing_table,
       Loader.mkState []
         [Loader.mkLog Loader.INFO "Truncating table FPL_EVENTS";
          Loader.mkLog Loader.ERROR
            "Truncation failed: ORA-00942: table or view does not exist"])
  ∧ Loader.count_rows (scripted_driver (Some missing_table)) "POOL" "FPL_EVENTS"
      fresh_state
    = (Raise missing_table,
       Loader.mkState []
         [Loader.mkLog Loader.INFO "Getting row count for table FPL_EVENTS";
          Loader.mkLog Loader.ERROR
            "Row count retrieval failed: ORA-00942: table or view does not exist"]).
Proof.
  split; [reflexivity|].
  destruct (proj1 (database_error_logged_then_reraised (list string)
                     (scripted_driver (Some missing_table)) "POOL" "FPL_EVENTS" []
                     fresh_state)
              missing_table [] eq_refl)
    as (Hcreate & Hdrop & Htruncate & Hcount).
  split; [|split; [|split]].
  - apply Hcreate, (raises_at_execute (scripted_driver (Some missing_table)) _ _ _ _ _ [] []);
      reflexivity.
  - apply Hdrop, (raises_at_execute (scripted_driver (Some missing_table)) _ _ _ _ _ [] []);
      reflexivity.
  - apply Htruncate, (raises_at_execute (scripted_driver (Some missing_table)) _ _ _ _ _ [] []);
      reflexivity.
  - apply Hcount, (raises_at_execute (scripted_driver (Some missing_table)) _ _ _ _ _ [] []);
      reflexivity.
Defined.

(** C9, the claim as stated, fails: [close] intercepts database errors only.
    A pool that still has busy connections refuses to close with an
    InterfaceError, which is not a database error, and [close] raises it to
    the caller. *)
Lemma close_raises_interface_error :
  is_database_error busy_pool = false
  ∧ Loader.close (scripted_driver (Some busy_pool)) "POOL" fresh_state
    = (Raise busy_pool,
       Loader.mkState []
         [Loader.mkLog Loader.INFO "Closing OracleDBLoader and its connection pool"]).
Proof. split; reflexivity. Qed.

(** C9, as it holds.  [close] keeps database errors from the caller, and
    only those.  An exception the driver raises in [odb.get_pool] or in
    [pool.close] ends in a normal return after an ERROR record when it is a
    database error, and reaches the caller unchanged and unlogged when it is
    not; so an exception that leaves [close] is never a database error.
    Without an exception the pool is closed when there is one, and the log
    says so. *)
Theorem close_swallows_database_errors_only :
  ∀ (DB : Type) (drv : Loader.Driver DB) (pool_alias : string) (s : Loader.State DB),
    let closing :=
      Loader.mkLog Loader.INFO "Closing OracleDBLoader and its connection pool" in
    let outcome (e : PyExc) (d' : DB) :=
      if is_database_error e
      then (Ok tt,
            Loader.mkState d'
              (Loader.log s
               ++ [closing;
                   Loader.mkLog Loader.ERROR
                     ("Failed to close connection pool: " ++ exc_msg e)]))
      else (Raise e, Loader.mkState d' (Loader.log s ++ [closing])) in
    let closed (d' : DB) :=
      (Ok tt,
       Loader.mkState d'
         (Loader.log s
          ++ [closing; Loader.mkLog Loader.INFO "Connection pool closed successfully"])) in
    (∀ e d1,
       Loader.get_pool drv pool_alias (Loader.db s) = (Raise e, d1) →
       Loader.close drv pool_alias s = outcome e d1)
    ∧ (∀ e d1 d2,
         Loader.get_pool drv pool_alias (Loader.db s) = (Ok true, d1) →
         Loader.pool_close drv pool_alias d1 = (Raise e, d2) →
         Loader.close drv pool_alias s = outcome e d2)
    ∧ (∀ d1 d2,
         Loader.get_pool drv pool_alias (Loader.db s) = (Ok true, d1) →
         Loader.pool_close drv pool_alias d1 = (Ok tt, d2) →
         Loader.close drv pool_alias s = closed d2)
    ∧ (∀ d1,
         Loader.get_pool drv pool_alias (Loader.db s) = (Ok false, d1) →
         Loader.close drv pool_alias s = closed d1)
    ∧ (∀ e s1,
         Loader.close drv pool_alias s = (Raise e, s1) → is_database_error e = false).
Proof.
  intros DB drv pool_alias s closing outcome closed.
  assert (Hget : ∀ e d1,
            Loader.get_pool drv pool_alias (Loader.db s) = (Raise e, d1) →
            Loader.close drv pool_alias s = outcome e d1).
  { intros e d1 H. apply close_on_exception.
    unfold Loader.close_block, Loader.bind, Loader.call. simpl. by rewrite H. }
  assert (Hclose : ∀ e d1 d2,
            Loader.get_pool drv pool_alias (Loader.db s) = (Ok true, d1) →
            Loader.pool_close drv pool_alias d1 = (Raise e, d2) →
            Loader.close drv pool_alias s = outcome e d2).
  { intros e d1 d2 H1 H2. apply close_on_exception.
    unfold Loader.close_block, Loader.bind, Loader.call. simpl. rewrite H1. simpl.
    by rewrite H2. }
  assert (Hok : ∀ d1 d2,
            Loader.get_pool drv pool_alias (Loader.db s) = (Ok true, d1) →
            Loader.pool_close drv pool_alias d1 = (Ok tt, d2) →
            Loader.close drv pool_alias s = closed d2).
  { intros d1 d2 H1 H2. rewrite close_after_first_record.
    unfold Loader.try_except_database_error, Loader.close_block, Loader.bind, Loader.call.
    simpl. rewrite H1. simpl. rewrite H2. simpl. unfold closed. by rewrite <- app_assoc. }
  assert (Hnone : ∀ d1,
            Loader.get_pool drv pool_alias (Loader.db s) = (Ok false, d1) →
            Loader.close drv pool_alias s = closed d1).
  { intros d1 H1. rewrite close_after_first_record.
    unfold Loader.try_except_database_error, Loader.close_block, Loader.bind, Loader.call.
    simpl. rewrite H1. simpl. unfold closed. by rewrite <- app_assoc. }
  repeat split; try done.
  intros e s1.
  destruct (Loader.get_pool drv pool_alias (Loader.db s)) as [[[]|e0] d1] eqn:Eget.
  - destruct (Loader.pool_close drv pool_alias d1) as [[[]|e1] d2] eqn:Eclose.
    + by rewrite (Hok d1 d2).
    + rewrite (Hclose e1 d1 d2) by done. unfold outcome.
      destruct (is_database_error e1) eqn:E1; [done|]. by intros [= <- _].
  - by rewrite (Hnone d1).
  - rewrite (Hget e0 d1) by done. unfold outcome.
    destruct (is_database_error e0) eqn:E0; [done|]. by intros [= <- _].
Qed.

(** Witness of C9: the pool refuses to close with a database error, and
    [close] returns after an ERROR record. *)
Lemma close_swallows_database_errors_only_witness :
  Loader.close (scripted_driver (Some missing_table)) "POOL" fresh_state
  = (Ok tt,
     Loader.mkState []
       [Loader.mkLog Loader.INFO "Closing OracleDBLoader and its connection pool";
        Loader.mkLog Loader.ERROR
          "Failed to close connection pool: ORA-00942: table or view does not exist"]).
Proof.
  exact (proj1 (proj2 (close_swallows_database_errors_only (list string)
                         (scripted_driver (Some missing_table)) "POOL" fresh_state))
           missing_table [] [] eq_refl eq_refl).
Defined.

(** ** Normalisation (utils.py) *)

Section FrameFacts.
Import Frame.
Local Open Scope list_scope.

Lemma find_add_by_search_same s cols :
  find_column (sname s) (add_by_search s cols) = Some s.
Proof.
  induction cols as [|c cols IH]; simpl.
  - by rewrite String.eqb_refl.
  - destruct (String.eqb (sname c) (sname s)) eqn:E; simpl.
    + by rewrite String.eqb_refl.
    + by rewrite E.
Qed.

Lemma find_add_by_search_other s cols m :
  m ≠ sname s → find_column m (add_by_search s cols) = find_column m cols.
Proof.
  intros Hm. induction cols as [|c cols IH]; simpl.
  - destruct (String.eqb_spec (sname s) m); congruence.
  - destruct (String.eqb_spec (sname c) (sname s)) as [E|E]; simpl.
    + destruct (String.eqb_spec (sname s) m); [congruence|].
      destruct (String.eqb_spec (sname c) m); congruence.
    + by rewrite IH.
Qed.

(** Adding a literal never fails: the literal is repeated to the height of
    the frame, and the height stays. *)
Lemma with_column_lit df name t v :
  with_column df (mkSeries name t [v])
  = Ok (mkFrame (height df)
          (add_by_search (mkSeries name t (repeat v (height df))) (columns df))).
Proof.
  unfold with_column. simpl.
  destruct (Nat.eqb_spec (height df) 1) as [->|Hne]; simpl; [done|].
  unfold new_from_index, slen. simpl. by rewrite repeat_length, Nat.eqb_refl.
Qed.

(** The invariant of the library's frames, spelled with a height. *)
Lemma well_formed_lengths df c :
  well_formed df → c ∈ columns df → slen c = height df.
Proof. intros [_ Hlen] Hc. by eapply Forall_forall in Hlen. Qed.

Lemma find_column_in cols c :
  NoDup (map sname cols) → c ∈ cols → find_column (sname c) cols = Some c.
Proof.
  induction cols as [|d cols IH]; simpl; [by intros _ ?%elem_of_nil|].
  intros [Hd Hnd]%NoDup_cons [->|Hc]%elem_of_cons.
  - by rewrite String.eqb_refl.
  - destruct (String.eqb_spec (sname d) (sname c)) as [E|E]; [|by apply IH].
    exfalso. apply Hd. rewrite E. apply list_elem_of_In, in_map. by apply list_elem_of_In.
Qed.

Lemma sname_cast_boolean c : sname (cast_boolean c) = sname c.
Proof. unfold cast_boolean. by destruct (is_boolean _). Qed.

Lemma slen_cast_boolean c : slen (cast_boolean c) = slen c.
Proof.
  unfold cast_boolean, slen. destruct (is_boolean _); simpl; [|done].
  by rewrite length_map.
Qed.

Lemma cast_boolean_id c : is_boolean (dtype c) = false → cast_boolean c = c.
Proof. unfold cast_boolean. by intros ->. Qed.

Lemma eval_all_casts df cs :
  NoDup (column_names df) → cs ⊆ columns df →
  eval_all df (map (λ col, CastInt8Alias col col) (map sname cs))
  = Ok (map (λ c, mkSeries (sname c) Int8 (map cast_int8 (cells c))) cs).
Proof.
  intros Hnd. induction cs as [|c cs IH]; intros Hsub; simpl; [done|].
  unfold get_column. rewrite find_column_in; [|done|set_solver]. simpl.
  rewrite IH by set_solver. done.
Qed.

(** A column of the frame's height is added as it is. *)
Lemma with_column_same_height df s :
  slen s = height df →
  with_column df s = Ok (mkFrame (height df) (add_by_search s (columns df))).
Proof.
  intros Hlen. unfold with_column. rewrite Hlen.
  replace ((height df =? 1)%nat && negb (height df =? 1)%nat) with false
    by by destruct (height df =? 1)%nat.
  by rewrite Hlen, Nat.eqb_refl.
Qed.

Lemma add_by_search_middle s pre c rest :
  Forall (λ p, sname p ≠ sname s) pre → sname c = sname s →
  add_by_search s (pre ++ c :: rest) = pre ++ s :: rest.
Proof.
  intros Hpre Hc. induction Hpre as [|p pre Hp _ IH]; simpl.
  - by rewrite Hc, String.eqb_refl.
  - destruct (String.eqb_spec (sname p) (sname s)); [done|]. by rewrite IH.
Qed.

Lemma add_columns_casts h pre rest :
  NoDup (map sname (pre ++ rest)) →
  Forall (λ c, slen c = h) (pre ++ rest) →
  add_columns (mkFrame h (map cast_boolean pre ++ rest))
    (map (λ c, mkSeries (sname c) Int8 (map cast_int8 (cells c)))
         (filter (λ c, is_boolean (dtype c) = true) rest))
  = Ok (mkFrame h (map cast_boolean (pre ++ rest))).
Proof.
  revert pre. induction rest as [|c rest IH]; intros pre Hnd Hlen; simpl.
  - by rewrite !app_nil_r.
  - assert (Hstep : map cast_boolean pre ++ cast_boolean c :: rest
                    = map cast_boolean (pre ++ [c]) ++ rest).
    { by rewrite map_app, <- app_assoc. }
    assert (Hnd' : NoDup (map sname ((pre ++ [c]) ++ rest))) by by rewrite <- app_assoc.
    assert (Hlen' : Forall (λ c, slen c = h) ((pre ++ [c]) ++ rest)) by by rewrite <- app_assoc.
    specialize (IH (pre ++ [c]) Hnd' Hlen').
    replace (pre ++ c :: rest) with ((pre ++ [c]) ++ rest) by by rewrite <- app_assoc.
    rewrite filter_cons. destruct (decide (is_boolean (dtype c) = true)) as [Hb|Hb].
    + simpl.
      set (s := mkSeries (sname c) Int8 (map cast_int8 (cells c))).
      assert (Hcast : cast_boolean c = s) by (unfold cast_boolean; by rewrite Hb).
      rewrite with_column_same_height; simpl.
      * rewrite add_by_search_middle; [| |done].
        -- fold s. rewrite <- Hcast, Hstep. exact IH.
        -- apply Forall_forall. intros p' Hp'.
           apply list_elem_of_In, in_map_iff in Hp' as (p & <- & Hp).
           rewrite sname_cast_boolean. simpl. intros E.
           rewrite map_app in Hnd. apply NoDup_app in Hnd as (_ & Hdisj & _).
           apply (Hdisj (sname p)).
           ++ apply list_elem_of_In, in_map. done.
           ++ rewrite E. simpl. left.
      * unfold slen; simpl. rewrite length_map.
        apply Forall_app in Hlen as [_ Hrest]. by apply Forall_cons in Hrest as [? _].
    + rewrite <- Hstep in IH. rewrite cast_boolean_id in IH; [done|].
      by destruct (is_boolean (dtype c)).
Qed.

Lemma zip_names_dtypes cols :
  zip (map sname cols) (map dtype cols) = map (λ c, (sname c, dtype c)) cols.
Proof. induction cols as [|c cols IH]; simpl; [done|]. by rewrite <- IH. Qed.

Lemma names_of_filtered_schema (P : DataType → bool) cols :
  map fst (filter (λ p, P (snd p) = true) (map (λ c, (sname c, dtype c)) cols))
  = map sname (filter (λ c, P (dtype c) = true) cols).
Proof.
  induction cols as [|c cols IH]; simpl; [done|].
  rewrite !filter_cons. simpl. destruct (decide (P (dtype c) = true)); simpl; by rewrite IH.
Qed.

Lemma same_name_same_column cols c d :
  NoDup (map sname cols) → c ∈ cols → d ∈ cols → sname c = sname d → c = d.
Proof.
  intros Hnd Hc Hd E.
  pose proof (find_column_in cols c Hnd Hc) as H1.
  pose proof (find_column_in cols d Hnd Hd) as H2.
  rewrite E in H1. congruence.
Qed.

Lemma filter_iff_on {A} (P Q : A → Prop) `{∀ x, Decision (P x)} `{∀ x, Decision (Q x)}
    (l : list A) :
  (∀ x, x ∈ l → P x ↔ Q x) → filter P l = filter Q l.
Proof.
  induction l as [|x l IH]; intros HPQ; [done|].
  assert (Hx : x ∈ x :: l) by (apply elem_of_cons; by left).
  rewrite !filter_cons. rewrite IH by (intros y Hy; apply HPQ, elem_of_cons; by right).
  destruct (decide (P x)) as [HP|HP], (decide (Q x)) as [HQ|HQ]; try done.
  - exfalso. by apply HQ, HPQ.
  - exfalso. by apply HP, HPQ.
Qed.

Lemma drop_nested_columns df :
  NoDup (column_names df) →
  drop (map sname (filter (λ c, is_nested (dtype c) = true) (columns df))) df
  = mkFrame (height df) (filter (λ c, is_nested (dtype c) = false) (columns df)).
Proof.
  intros Hnd. unfold drop. f_equal. apply filter_iff_on. intros c Hc. split.
  - intros Hnot. destruct (is_nested (dtype c)) eqn:E; [|done].
    exfalso. apply Hnot. apply list_elem_of_In, in_map, list_elem_of_In.
    by apply list_elem_of_filter.
  - intros E Hin. apply list_elem_of_In, in_map_iff in Hin as (d & Hname & Hd).
    apply list_elem_of_In, list_elem_of_filter in Hd as [Hnested Hd].
    assert (d = c) as -> by by eapply same_name_same_column.
    congruence.
Qed.

Lemma NoDup_names_filter (P : Series → Prop) `{∀ c, Decision (P c)} cols :
  NoDup (map sname cols) → NoDup (map sname (filter P cols)).
Proof.
  induction cols as [|c cols IH]; simpl; [done|].
  intros [Hc Hnd]%NoDup_cons. rewrite filter_cons. destruct (decide (P c)); [|by apply IH].
  simpl. apply NoDup_cons. split; [|by apply IH].
  intros Hin. apply Hc. apply list_elem_of_In, in_map_iff in Hin as (d & E & Hd).
  apply list_elem_of_In, list_elem_of_filter in Hd as [_ Hd].
  rewrite <- E. by apply list_elem_of_In, in_map, list_elem_of_In.
Qed.

(** [clean_df] on a frame of the library is [normalized], and never raises. *)
Lemma clean_df_normalized df :
  well_formed df → Utils.clean_df df = Ok (normalized df).
Proof.
  intros [Hnd Hlen]. unfold Utils.clean_df, column_names, schema.
  rewrite zip_names_dtypes, (names_of_filtered_schema is_nested).
  rewrite drop_nested_columns by done. simpl.
  rewrite (names_of_filtered_schema is_boolean).
  set (cols := filter (λ c, is_nested (dtype c) = false) (columns df)).
  assert (Hnd1 : NoDup (map sname cols)) by by apply NoDup_names_filter.
  assert (Hlen1 : Forall (λ c, slen c = height df) cols).
  { apply Forall_forall. intros c [_ Hc]%list_elem_of_filter.
    by eapply Forall_forall in Hlen. }
  pose proof (add_columns_casts (height df) [] cols Hnd1 Hlen1) as Hadd. simpl in Hadd.
  unfold normalized. fold cols.
  remember (filter (λ c, is_boolean (dtype c) = true) cols) as bools eqn:Hbool.
  destruct bools as [|b bs].
  - simpl in *. by injection Hadd as <-.
  - change (with_columns (mkFrame (height df) cols)
              (map (λ col, CastInt8Alias col col) (map sname (b :: bs)))
            = Ok (mkFrame (height df) (map cast_boolean cols))).
    unfold with_columns. rewrite eval_all_casts; [exact Hadd | done |].
    intros c Hc. rewrite Hbool in Hc. simpl. by apply list_elem_of_filter in Hc as [_ ?].
Qed.

Lemma height_normalized df :
  well_formed df → Forall (λ c, slen c = height df) (columns (normalized df)).
Proof.
  intros [_ Hlen]. apply Forall_forall. intros c' Hc'. simpl in Hc'.
  apply list_elem_of_In, in_map_iff in Hc' as (c & <- & Hc).
  apply list_elem_of_In, list_elem_of_filter in Hc as [_ Hc].
  rewrite slen_cast_boolean. by eapply Forall_forall in Hlen.
Qed.

Lemma normalized_well_formed df : well_formed df → well_formed (normalized df).
Proof.
  intros Hwf. pose proof (height_normalized df Hwf) as Hlen. split.
  - unfold column_names. simpl. rewrite map_map.
    rewrite (map_ext _ sname) by apply sname_cast_boolean.
    apply NoDup_names_filter, Hwf.
  - exact Hlen.
Qed.

Lemma cast_boolean_not_nested c :
  is_nested (dtype c) = false → is_nested (dtype (cast_boolean c)) = false.
Proof. unfold cast_boolean. by destruct (is_boolean (dtype c)). Qed.

Lemma cast_boolean_twice c : cast_boolean (cast_boolean c) = cast_boolean c.
Proof.
  unfold cast_boolean. destruct (is_boolean (dtype c)) eqn:E; simpl; [done|].
  by rewrite E.
Qed.

Lemma normalized_twice df : normalized (normalized df) = normalized df.
Proof.
  unfold normalized. simpl. f_equal.
  set (cols := filter (λ c, is_nested (dtype c) = false) (columns df)).
  assert (Hkeep : filter (λ c, is_nested (dtype c) = false) (map cast_boolean cols)
                  = map cast_boolean cols).
  { assert (Hall : Forall (λ c, is_nested (dtype c) = false) cols).
    { apply Forall_forall. by intros c [? _]%list_elem_of_filter. }
    clearbody cols. induction Hall as [|c cols Hc _ IH]; simpl; [done|].
    rewrite filter_cons_True by by apply cast_boolean_not_nested.
    by rewrite IH. }
  rewrite Hkeep, map_map. apply map_ext. intros c. apply cast_boolean_twice.
Qed.

Lemma normalized_boolean_column df c :
  well_formed df → c ∈ columns df → dtype c = Boolean →
  get_column (normalized df) (sname c)
  = Some (mkSeries (sname c) Int8 (map cast_int8 (cells c))).
Proof.
  intros Hwf Hc Hbool.
  assert (Hcast : cast_boolean c = mkSeries (sname c) Int8 (map cast_int8 (cells c))).
  { unfold cast_boolean. by rewrite Hbool. }
  rewrite <- Hcast, <- (sname_cast_boolean c). unfold get_column.
  apply find_column_in; [apply (normalized_well_formed df Hwf)|].
  simpl. apply list_elem_of_In, in_map, list_elem_of_In, list_elem_of_filter.
  split; [by rewrite Hbool | done].
Qed.

End FrameFacts.

(** C4.  On every buffer of the library, [clean_df] returns a buffer in
    which each Boolean column has become an [Int8] column of the same name
    whose cells are the old ones with true as 1, false as 0 and null as
    null; and [clean_df] of that buffer is that buffer again. *)
Theorem clean_df_boolean_to_int8_idempotent :
  ∀ b : Frame.DataFrame,
    Frame.well_formed b →
    ∃ b',
      Utils.clean_df b = Ok b'
      ∧ (∀ c, c ∈ Frame.columns b → Frame.dtype c = Frame.Boolean →
              Frame.get_column b' (Frame.sname c)
              = Some (Frame.mkSeries (Frame.sname c) Frame.Int8
                        (map Frame.cast_int8 (Frame.cells c))))
      ∧ (Frame.cast_int8 (JBool true) = JInt 1
         ∧ Frame.cast_int8 (JBool false) = JInt 0
         ∧ Frame.cast_int8 JNull = JNull)
      ∧ Utils.clean_df b' = Ok b'.
Proof.
  intros b Hwf. exists (normalized b). split; [by apply clean_df_normalized|].
  split; [intros c Hc Hb; by apply normalized_boolean_column|].
  split; [done|].
  rewrite clean_df_normalized by by apply normalized_well_formed.
  by rewrite normalized_twice.
Qed.

(** ** Buffers (extractors.py) *)

Section ParseFacts.
Import Frame.
Local Open Scope list_scope.

Lemma get_shape (uuid4 now_iso : nat → string)
    (requests_get : string → nat → Result Response) url w st w' :
  get uuid4 now_iso requests_get url w = (Ok st, w') →
  ∃ r, requests_get url (S (tick w)) = Ok r
       ∧ st = <["response_elapsed_ms" := SVal (JFloat (mkFloat (elapsed_us r) 1000))]>
               (<["response_code" := SVal (JInt (status_code r))]>
                 (<["response" := SResponse r]>
                   (<["request_time" := SVal (JStr (now_iso (tick w)))]>
                     (<["request_id" := SVal (JStr (uuid4 (tick w)))]> ∅))))
       ∧ w' = mkWorld (S (S (tick w))) (fetched w ++ [url]).
Proof.
  unfold get, stamp. simpl.
  destruct (requests_get url (S (tick w))) as [r|e]; [|discriminate].
  intros [= <- <-]. by exists r.
Qed.

Lemma stamp_names n :
  n ∈ stamp_columns →
  n = "request_id" ∨ n = "request_time" ∨ n = "response_code" ∨ n = "response_elapsed_ms".
Proof. unfold stamp_columns. set_solver. Qed.

Lemma get_stamped (uuid4 now_iso : nat → string)
    (requests_get : string → nat → Result Response) url w st w' :
  get uuid4 now_iso requests_get url w = (Ok st, w') →
  stamped st ∧ ∃ r, st !! "response" = Some (SResponse r)
                    ∧ st !! "response_code" = Some (SVal (JInt (status_code r))).
Proof.
  intros (r & _ & -> & _)%get_shape. split.
  - intros n [->|[->|[->| ->]]]%stamp_names; eexists; by simplify_map_eq.
  - exists r. by simplify_map_eq.
Qed.

Lemma parse_store_stamped st key st' :
  stamped st → parse_store st key = Ok st' → stamped st'.
Proof.
  intros Hst. unfold parse_store.
  destruct (stamp_item st "response_code") as [code|]; [simpl|done].
  set (upd := if is_200 code then _ else _).
  destruct upd as [st1|] eqn:Hupd; [simpl|done].
  destruct (st1 !! "response") eqn:Hresp; [|done]. intros [= <-].
  assert (Hst1 : stamped st1).
  { subst upd. destruct (is_200 code).
    - destruct key as [k|].
      + destruct (stamp_item st "response") as [r|]; [simpl in Hupd|done].
        destruct (response_json r) as [body|]; [simpl in Hupd|done].
        destruct (json_get body k) as [v|]; [simpl in Hupd|done].
        injection Hupd as <-. intros n Hn.
        destruct (decide (k = n)) as [->|Hne].
        * eexists. by rewrite lookup_insert_eq.
        * rewrite lookup_insert_ne by done. by apply Hst.
      + destruct (stamp_item st "response") as [r|]; [simpl in Hupd|done].
        destruct (response_json r) as [body|]; [simpl in Hupd|done].
        injection Hupd as <-. intros n Hn. rewrite lookup_insert_ne; [by apply Hst|].
        apply stamp_names in Hn. naive_solver.
    - injection Hupd as <-. intros n Hn. rewrite lookup_insert_ne; [by apply Hst|].
      apply stamp_names in Hn. naive_solver. }
  intros n Hn. rewrite lookup_delete_ne; [by apply Hst1|].
  apply stamp_names in Hn. naive_solver.
Qed.

Lemma enrich_one_lit st df n v :
  st !! n = Some (SVal v) →
  enrich_one st df n
  = Ok (mkFrame (height df)
          (add_by_search (mkSeries n (dtype_of_value v) (repeat v (height df)))
             (columns df))).
Proof.
  intros Hn. unfold enrich_one, lit_of_stamp, stamp_item. rewrite Hn. simpl.
  unfold with_columns. simpl. by rewrite with_column_lit.
Qed.

Lemma enrich_one_inv st df n df' :
  enrich_one st df n = Ok df' →
  ∃ v, st !! n = Some (SVal v)
       ∧ df' = mkFrame (height df)
                 (add_by_search (mkSeries n (dtype_of_value v) (repeat v (height df)))
                    (columns df)).
Proof.
  intros H. destruct (st !! n) as [[v|r]|] eqn:Hn.
  - exists v. split; [done|]. rewrite (enrich_one_lit st df n v Hn) in H. congruence.
  - unfold enrich_one, lit_of_stamp, stamp_item in H. by rewrite Hn in H.
  - unfold enrich_one, lit_of_stamp, stamp_item in H. by rewrite Hn in H.
Qed.

(** What a run of [enrich] leaves in the frame. *)
Lemma enrich_inv st names : ∀ df df',
  enrich st df names = Ok df' →
  (∀ m, m ∉ names → get_column df' m = get_column df m)
  ∧ height df' = height df
  ∧ (NoDup names → ∀ n, n ∈ names →
       ∃ v, st !! n = Some (SVal v)
            ∧ get_column df' n
              = Some (mkSeries n (dtype_of_value v) (repeat v (height df)))).
Proof.
  induction names as [|n rest IH]; intros df df' Hrun; simpl in Hrun.
  - injection Hrun as <-. split; [done|]. split; [done|]. by intros _ n ?%elem_of_nil.
  - destruct (enrich_one st df n) as [df1|] eqn:Hone; [simpl in Hrun|done].
    apply enrich_one_inv in Hone as (v & Hv & Hdf1).
    set (s := mkSeries n (dtype_of_value v) (repeat v (height df))) in Hdf1.
    assert (Hh : height df1 = height df) by by rewrite Hdf1.
    destruct (IH df1 df' Hrun) as (Hother & Hheight & Hcols).
    assert (Hn1 : get_column df1 n = Some s).
    { rewrite Hdf1. apply (find_add_by_search_same s). }
    assert (Hm1 : ∀ m, m ≠ n → get_column df1 m = get_column df m).
    { intros m Hm. rewrite Hdf1. by apply (find_add_by_search_other s). }
    split; [|split].
    + intros m Hm. apply not_elem_of_cons in Hm as [Hmn Hmr].
      rewrite Hother by done. by apply Hm1.
    + congruence.
    + intros [Hn Hnd]%NoDup_cons n0 [->|Hn0]%elem_of_cons.
      * exists v. split; [done|]. by rewrite Hother.
      * destruct (Hcols Hnd n0 Hn0) as (v0 & Hv0 & Hcol). exists v0. split; [done|].
        by rewrite Hcol, Hh.
Qed.

Lemma stamp_columns_NoDup : NoDup stamp_columns.
Proof. unfold stamp_columns. repeat (apply NoDup_cons; split; [set_solver|]). apply NoDup_nil_2. Qed.

End ParseFacts.


Section BufferShapes.
Import Frame.
Local Open Scope list_scope.

(** The four literals of a stamped stamp. *)
Lemma stamped_values st :
  stamped st →
  ∃ v1 v2 v3 v4,
    st !! "request_id" = Some (SVal v1) ∧ st !! "request_time" = Some (SVal v2)
    ∧ st !! "response_code" = Some (SVal v3) ∧ st !! "response_elapsed_ms" = Some (SVal v4).
Proof.
  intros Hst.
  destruct (Hst "request_id") as [v1 H1]; [unfold stamp_columns; set_solver|].
  destruct (Hst "request_time") as [v2 H2]; [unfold stamp_columns; set_solver|].
  destruct (Hst "response_code") as [v3 H3]; [unfold stamp_columns; set_solver|].
  destruct (Hst "response_elapsed_ms") as [v4 H4]; [unfold stamp_columns; set_solver|].
  by exists v1, v2, v3, v4.
Qed.

(** Stamping the skeleton of four empty columns keeps it without rows. *)
Lemma enrich_skeleton st :
  stamped st →
  ∃ df, enrich st (of_empty_columns stamp_columns) stamp_columns = Ok df
        ∧ height df = 0%nat ∧ column_names df = stamp_columns.
Proof.
  intros (v1 & v2 & v3 & v4 & H1 & H2 & H3 & H4)%stamped_values.
  eexists. unfold stamp_columns, enrich.
  rewrite (enrich_one_lit _ _ _ _ H1). simpl.
  rewrite (enrich_one_lit _ _ _ _ H2). simpl.
  rewrite (enrich_one_lit _ _ _ _ H3). simpl.
  rewrite (enrich_one_lit _ _ _ _ H4). simpl.
  done.
Qed.

(** Stamping the frame without columns and rows gives it the four columns
    and no row. *)
Lemma enrich_empty st :
  stamped st →
  ∃ df, enrich st Frame.empty stamp_columns = Ok df
        ∧ height df = 0%nat ∧ column_names df = stamp_columns.
Proof.
  intros (v1 & v2 & v3 & v4 & H1 & H2 & H3 & H4)%stamped_values.
  eexists. unfold stamp_columns, enrich.
  rewrite (enrich_one_lit _ _ _ _ H1). simpl.
  rewrite (enrich_one_lit _ _ _ _ H2). simpl.
  rewrite (enrich_one_lit _ _ _ _ H3). simpl.
  rewrite (enrich_one_lit _ _ _ _ H4). simpl.
  done.
Qed.

End BufferShapes.

(** A stamped stamp that still has its response and a code other than 200
    is parsed to the skeleton. *)
Lemma parse_skeleton frame_of_records st key code r :
  stamped st →
  st !! "response" = Some r →
  st !! "response_code" = Some (SVal (JInt code)) →
  code ≠ 200 →
  ∃ df, parse frame_of_records st key = Ok df
        ∧ Frame.height df = 0%nat
        ∧ Frame.column_names df = stamp_columns.
Proof.
  intros Hst Hresp Hcode Hne.
  assert (H200 : (code =? 200) = false) by lia.
  assert (Hstore : parse_store st key
                   = Ok (delete "response" (<["data" := SVal JNull]> st))).
  { unfold parse_store, stamp_item. rewrite Hcode. simpl. rewrite H200. simpl.
    rewrite lookup_insert_ne by done. by rewrite Hresp. }
  pose proof (parse_store_stamped _ _ _ Hst Hstore) as Hst'.
  destruct (enrich_skeleton _ Hst') as (df & Hdf & Hh & Hnames).
  exists df. split; [|done].
  unfold parse. rewrite Hstore. simpl. unfold parse_frame, stamp_item.
  rewrite lookup_delete_ne, lookup_insert_ne, Hcode by done. simpl. rewrite H200.
  by destruct key.
Qed.

(** C5.  For every fetch result whose response code is not 200, with or
    without a key, [parse] returns a buffer without rows whose columns are
    exactly request_id, request_time, response_code and
    response_elapsed_ms, in that order. *)
Theorem parse_non_200_empty_with_stamp_columns :
  ∀ (uuid4 now_iso : nat → string) (requests_get : string → nat → Result Response)
    (frame_of_records : json → Result Frame.DataFrame)
    (url : string) (w w' : World) (st : gmap string StampVal)
    (key : option string) (code : Z),
    get uuid4 now_iso requests_get url w = (Ok st, w') →
    st !! "response_code" = Some (SVal (JInt code)) →
    code ≠ 200 →
    ∃ df, parse frame_of_records st key = Ok df
          ∧ Frame.height df = 0%nat
          ∧ Frame.column_names df = stamp_columns.
Proof.
  intros uuid4 now_iso requests_get frame_of_records url w w' st key code Hget Hcode Hne.
  destruct (get_stamped _ _ _ _ _ _ _ Hget) as (Hst & r & Hresp & _).
  by eapply parse_skeleton.
Qed.

(** C3.  For every fetch result with response code 200 and a key that the
    parsed body does not have, [parse] returns a buffer without rows in
    which the four stamp columns are present - they are its only columns,
    in the order request_id, request_time, response_code,
    response_elapsed_ms.  The frame made of the empty list has neither
    columns nor rows, and a literal added to it is repeated to its height,
    which is zero. *)
Theorem parse_missing_key_empty_with_stamp_columns :
  ∀ (uuid4 now_iso : nat → string) (requests_get : string → nat → Result Response)
    (frame_of_records : json → Result Frame.DataFrame)
    (url : string) (w w' : World) (st : gmap string StampVal)
    (key : string) (r : Response) (body : list (string * json)),
    get uuid4 now_iso requests_get url w = (Ok st, w') →
    st !! "response" = Some (SResponse r) →
    status_code r = 200 →
    json_body r = Ok (JDict body) →
    entries_get body key = None →
    ∃ df, parse frame_of_records st (Some key) = Ok df
          ∧ Frame.height df = 0%nat
          ∧ (∀ name, name ∈ stamp_columns → name ∈ Frame.column_names df)
          ∧ Frame.column_names df = stamp_columns.
Proof.
  intros uuid4 now_iso requests_get frame_of_records url w w' st key r body
    Hget Hresp H200 Hbody Habsent.
  destruct (get_stamped _ _ _ _ _ _ _ Hget) as (Hst & r' & Hresp' & Hcode).
  assert (r' = r) as -> by congruence. rewrite H200 in Hcode.
  assert (Hstore : parse_store st (Some key)
                   = Ok (delete "response" (<[key := SVal JNull]> st))).
  { unfold parse_store, stamp_item. rewrite Hcode, Hresp. simpl. rewrite Hbody. simpl.
    rewrite Habsent. simpl.
    destruct (decide (key = "response")) as [->|Hne].
    - by rewrite lookup_insert_eq.
    - rewrite lookup_insert_ne by done. by rewrite Hresp. }
  pose proof (parse_store_stamped _ _ _ Hst Hstore) as Hst'.
  assert (Hshape : ∃ df, parse frame_of_records st (Some key) = Ok df
                         ∧ Frame.height df = 0%nat
                         ∧ Frame.column_names df = stamp_columns).
  { unfold parse. rewrite Hstore. simpl. unfold parse_frame, stamp_item.
    destruct (decide (key = "response_code")) as [->|Hkey].
    - destruct (enrich_skeleton _ Hst') as (df & Hdf & Hh & Hnames).
      exists df. split; [|done].
      rewrite lookup_delete_ne, lookup_insert_eq by done. simpl. exact Hdf.
    - destruct (enrich_empty _ Hst') as (df & Hdf & Hh & Hnames).
      exists df. split; [|done].
      rewrite lookup_delete_ne, lookup_insert_ne, Hcode by done. simpl.
      unfold frame_of_key.
      destruct (decide (key = "response")) as [->|Hne].
      + rewrite lookup_delete_eq. simpl. exact Hdf.
      + rewrite lookup_delete_ne, lookup_insert_eq by done. simpl. exact Hdf. }
  destruct Hshape as (df & Hparse & Hh & Hnames).
  exists df. split; [done|]. split; [done|]. split; [|done].
  intros name Hname. by rewrite Hnames.
Qed.

(** ** The generator (extractors.py) *)

Lemma one_request_per_name urljoin base endpoints :
  length (requested_urls urljoin base endpoints) = length (yielded_names endpoints).
Proof.
  unfold requested_urls, yielded_names.
  induction endpoints as [|ep eps IH]; simpl; [done|].
  by rewrite !length_app, length_map, IH.
Qed.

Section GenerateFacts.
Local Open Scope list_scope.

Variable uuid4 : nat → string.
Variable now_iso : nat → string.
Variable requests_get : string → nat → Result Response.
Variable urljoin : string → string → string.
Variable frame_of_records : json → Result Frame.DataFrame.

Lemma fetch_logs_request url key w :
  fetched (snd (fetch uuid4 now_iso requests_get frame_of_records url key w)) = fetched w ++ [url].
Proof.
  unfold fetch, get, stamp. simpl.
  by destruct (requests_get url (S (tick w))).
Qed.

Lemma generate_keys_spec url keys : ∀ w,
  fetches_succeed uuid4 now_iso requests_get frame_of_records →
  ∃ items w',
    generate_keys uuid4 now_iso requests_get frame_of_records url keys w = (Ok items, w')
    ∧ map fst items = keys
    ∧ fetched w' = fetched w ++ map (λ _, url) keys.
Proof.
  induction keys as [|k keys IH]; intros w Hok; simpl.
  - exists [], w. by rewrite app_nil_r.
  - destruct (Hok url (Some k) w) as [df Hdf].
    pose proof (fetch_logs_request url (Some k) w) as Hlog.
    destruct (fetch uuid4 now_iso requests_get frame_of_records url (Some k) w) as [r w1]. simpl in Hdf, Hlog. subst r.
    destruct (IH w1 Hok) as (items & w' & -> & Hnames & Hurls).
    exists ((k, df) :: items), w'. simpl. split; [done|]. split; [by rewrite Hnames|].
    by rewrite Hurls, Hlog, <- app_assoc.
Qed.

Lemma generate_endpoint_spec base e keys w :
  fetches_succeed uuid4 now_iso requests_get frame_of_records →
  ∃ items w',
    generate_endpoint uuid4 now_iso requests_get urljoin frame_of_records base e keys w
    = (Ok items, w')
    ∧ map fst items = endpoint_names (e, keys)
    ∧ fetched w' = fetched w ++ map (λ _, urljoin base e) (endpoint_names (e, keys)).
Proof.
  intros Hok. unfold generate_endpoint, endpoint_names. simpl.
  destruct keys as [|k keys].
  - destruct (Hok (urljoin base e) None w) as [df Hdf].
    pose proof (fetch_logs_request (urljoin base e) None w) as Hlog.
    destruct (fetch uuid4 now_iso requests_get frame_of_records (urljoin base e) None w) as [r w1]. simpl in Hdf, Hlog. subst r.
    by exists [(e, df)], w1.
  - by apply generate_keys_spec.
Qed.

Lemma generate_spec base endpoints : ∀ w,
  fetches_succeed uuid4 now_iso requests_get frame_of_records →
  ∃ items w',
    generate uuid4 now_iso requests_get urljoin frame_of_records base endpoints w
    = (Ok items, w')
    ∧ map fst items = yielded_names endpoints
    ∧ fetched w' = fetched w ++ requested_urls urljoin base endpoints.
Proof.
  induction endpoints as [|[e keys] endpoints IH]; intros w Hok; simpl.
  - exists [], w. by rewrite app_nil_r.
  - destruct (generate_endpoint_spec base e keys w Hok) as (items1 & w1 & -> & Hn1 & Hu1).
    destruct (IH w1 Hok) as (items2 & w2 & -> & Hn2 & Hu2).
    exists (items1 ++ items2), w2. split; [done|]. split.
    + by rewrite map_app, Hn1, Hn2.
    + by rewrite Hu2, Hu1, <- app_assoc.
Qed.

End GenerateFacts.

(** C6.  When no request raises and every response can be made a buffer,
    [generate] yields, for any endpoint configuration, one item per sub-key
    in configured order for an endpoint with sub-keys and one item named
    after the endpoint for an endpoint without, and performs exactly one
    request per yielded item, to the address of the item's endpoint and in
    the order of the items.  For {"bootstrap-static": ["events"],
    "fixtures": []} these are two requests, and the items are named
    "events" and "fixtures", in that order. *)
Theorem generate_one_fetch_per_item :
  ∀ (uuid4 now_iso : nat → string) (requests_get : string → nat → Result Response)
    (urljoin : string → string → string)
    (frame_of_records : json → Result Frame.DataFrame) (base : string) (w : World),
    fetches_succeed uuid4 now_iso requests_get frame_of_records →
    (∀ endpoints, ∃ items w',
       generate uuid4 now_iso requests_get urljoin frame_of_records base endpoints w
       = (Ok items, w')
       ∧ map fst items = yielded_names endpoints
       ∧ fetched w' = (fetched w ++ requested_urls urljoin base endpoints)%list
       ∧ length (requested_urls urljoin base endpoints) = length items)
    ∧ yielded_names [("bootstrap-static", ["events"]); ("fixtures", [])]
      = ["events"; "fixtures"]
    ∧ requested_urls urljoin base [("bootstrap-static", ["events"]); ("fixtures", [])]
      = [urljoin base "bootstrap-static"; urljoin base "fixtures"]
    ∧ (∀ e, yielded_names [(e, [])] = [e])
    ∧ (∀ e k keys, yielded_names [(e, k :: keys)] = k :: keys).
Proof.
  intros uuid4 now_iso requests_get urljoin frame_of_records base w Hok.
  split; [|repeat split; intros; unfold yielded_names; simpl; by rewrite ?app_nil_r].
  intros endpoints.
  destruct (generate_spec uuid4 now_iso requests_get urljoin frame_of_records
              base endpoints w Hok) as (items & w' & Hgen & Hnames & Hurls).
  exists items, w'. repeat split; try done.
  rewrite <- (length_map fst items), Hnames. apply one_request_per_name.
Qed.

(** ** Witnesses *)

(** Witness of C4: the mixed frame loses its nested column, its Boolean
    column becomes 1, 0, null, and a second pass changes nothing. *)
Lemma clean_df_boolean_to_int8_idempotent_witness :
  ∃ b',
    Utils.clean_df example_mixed_frame = Ok b'
    ∧ (∀ c, c ∈ Frame.columns example_mixed_frame → Frame.dtype c = Frame.Boolean →
            Frame.get_column b' (Frame.sname c)
            = Some (Frame.mkSeries (Frame.sname c) Frame.Int8
                      (map Frame.cast_int8 (Frame.cells c))))
    ∧ (Frame.cast_int8 (JBool true) = JInt 1
       ∧ Frame.cast_int8 (JBool false) = JInt 0
       ∧ Frame.cast_int8 JNull = JNull)
    ∧ Utils.clean_df b' = Ok b'.
Proof.
  apply (clean_df_boolean_to_int8_idempotent example_mixed_frame).
  split.
  - apply (bool_decide_unpack _). vm_compute. exact I.
  - repeat constructor.
Defined.

(** Witness of C5: a server that answers 503. *)
Lemma parse_non_200_empty_with_stamp_columns_witness :
  ∃ df, parse example_constructor (example_stamp 503 JNull) (Some "events") = Ok df
        ∧ Frame.height df = 0%nat
        ∧ Frame.column_names df = stamp_columns.
Proof.
  apply (parse_non_200_empty_with_stamp_columns example_uuid4 example_now
           (server 503 JNull) example_constructor "https://fantasy.premierleague.com/api/bootstrap-static"
           first_world
           (mkWorld 2 ["https://fantasy.premierleague.com/api/bootstrap-static"])
           (example_stamp 503 JNull) (Some "events") 503).
  - reflexivity.
  - reflexivity.
  - discriminate.
Defined.

(** Witness of C3: the body has teams and no events. *)
Lemma parse_missing_key_empty_with_stamp_columns_witness :
  ∃ df, parse example_constructor (example_stamp 200 (JDict [("teams", JList [])]))
          (Some "events") = Ok df
        ∧ Frame.height df = 0%nat
        ∧ (∀ name, name ∈ stamp_columns → name ∈ Frame.column_names df)
        ∧ Frame.column_names df = stamp_columns.
Proof.
  apply (parse_missing_key_empty_with_stamp_columns example_uuid4 example_now
           (server 200 (JDict [("teams", JList [])])) example_constructor
           "https://fantasy.premierleague.com/api/bootstrap-static" first_world
           (mkWorld 2 ["https://fantasy.premierleague.com/api/bootstrap-static"])
           (example_stamp 200 (JDict [("teams", JList [])])) "events"
           (mkResponse 200 123000 (Ok (JDict [("teams", JList [])])))
           [("teams", JList [])]);
    reflexivity.
Defined.


(** A server that answers 503 to everything never makes a fetch fail. *)
Lemma unavailable_server_fetches_succeed :
  fetches_succeed example_uuid4 example_now (server 503 JNull) example_constructor.
Proof.
  intros url key w. unfold fetch.
  destruct (get example_uuid4 example_now (server 503 JNull) url w) as [[st|e] w'] eqn:Hget.
  - destruct (get_stamped _ _ _ _ _ _ _ Hget) as (Hst & r & Hresp & Hcode).
    apply get_shape in Hget as (r0 & Hr0 & -> & _).
    assert (r = r0) as -> by by simplify_map_eq.
    injection Hr0 as <-. simpl in Hcode.
    destruct (parse_skeleton example_constructor _ key 503 _ Hst Hresp Hcode) as (df & Hdf & _);
      [done|].
    by exists df.
  - unfold get, server in Hget. simpl in Hget. discriminate.
Qed.

(** Witness of C6: against that server, the configuration of the scenario
    costs two requests and yields "events", then "fixtures". *)
Lemma generate_one_fetch_per_item_witness :
  ∃ items w',
    generate example_uuid4 example_now (server 503 JNull) example_urljoin example_constructor
      fpl_base [("bootstrap-static", ["events"]); ("fixtures", [])] first_world
    = (Ok items, w')
    ∧ map fst items = ["events"; "fixtures"]
    ∧ fetched w'
      = ["https://fantasy.premierleague.com/api/bootstrap-static";
         "https://fantasy.premierleague.com/api/fixtures"]
    ∧ length (fetched w') = length items.
Proof.
  destruct (proj1 (generate_one_fetch_per_item example_uuid4 example_now (server 503 JNull)
                     example_urljoin example_constructor fpl_base first_world
                     unavailable_server_fetches_succeed)
              [("bootstrap-static", ["events"]); ("fixtures", [])])
    as (items & w' & Hgen & Hnames & Hurls & Hlen).
  exists items, w'. split; [exact Hgen|]. split; [exact Hnames|]. split; [exact Hurls|].
  rewrite Hurls. exact Hlen.
Defined.

(** * Further properties *)

(** ** Buffers, the generator and normalisation *)

Section ParseMore.
Import Frame.
Local Open Scope list_scope.

(** Stamping never fails on a stamped stamp. *)
Lemma enrich_total st names : ∀ df,
  (∀ n, n ∈ names → ∃ v, st !! n = Some (SVal v)) →
  ∃ df', enrich st df names = Ok df'.
Proof.
  induction names as [|n rest IH]; intros df Hst; simpl; [by eexists|].
  destruct (Hst n) as [v Hv]; [by left|].
  rewrite (enrich_one_lit _ _ _ _ Hv). simpl. apply IH.
  intros m Hm. apply Hst. by right.
Qed.

Lemma add_by_search_absent s cols :
  sname s ∉ map sname cols → add_by_search s cols = cols ++ [s].
Proof.
  induction cols as [|c cols IH]; simpl; [done|]. intros Hnot.
  apply not_elem_of_cons in Hnot as [Hne Hnot].
  destruct (String.eqb_spec (sname c) (sname s)); [congruence|]. by rewrite IH.
Qed.

(** Names the frame does not have yet are appended, in order. *)
Lemma enrich_appends st names : ∀ df df',
  NoDup names → (∀ n, n ∈ names → n ∉ column_names df) →
  enrich st df names = Ok df' →
  column_names df' = column_names df ++ names.
Proof.
  induction names as [|n rest IH]; intros df df' Hnd Hfresh Hrun; simpl in Hrun.
  - injection Hrun as <-. by rewrite app_nil_r.
  - destruct (enrich_one st df n) as [df1|] eqn:Hone; [simpl in Hrun|done].
    apply enrich_one_inv in Hone as (v & _ & Hdf1).
    apply NoDup_cons in Hnd as [Hn Hnd].
    assert (Hnames1 : column_names df1 = column_names df ++ [n]).
    { rewrite Hdf1. unfold column_names. simpl. rewrite add_by_search_absent.
      - by rewrite map_app.
      - simpl. apply Hfresh. by left. }
    rewrite (IH df1 df' Hnd); [by rewrite Hnames1, <- app_assoc| |done].
    intros m Hm. rewrite Hnames1. intros [Hin|Hin]%elem_of_app.
    + apply (Hfresh m); [by right|done].
    + apply list_elem_of_singleton in Hin as ->. done.
Qed.

(** The stamp of a fetch, after the first half of [parse] on a response
    with code 200 whose body is an object. *)
Lemma parse_store_keyed (uuid4 now_iso : nat → string)
    (requests_get : string → nat → Result Response) url w w' st key r body :
  get uuid4 now_iso requests_get url w = (Ok st, w') →
  st !! "response" = Some (SResponse r) →
  status_code r = 200 →
  json_body r = Ok (JDict body) →
  ∃ st',
    parse_store st (Some key) = Ok st'
    ∧ stamped st'
    ∧ (key ≠ "response_code" → st' !! "response_code" = Some (SVal (JInt 200)))
    ∧ (key ≠ "response" →
       st' !! key = Some (SVal (match entries_get body key with
                                | Some v => v
                                | None => JNull
                                end)))
    ∧ (key = "response" → st' !! key = None).
Proof.
  intros Hget Hresp H200 Hbody.
  destruct (get_stamped _ _ _ _ _ _ _ Hget) as (Hst & r' & Hresp' & Hcode).
  assert (r' = r) as -> by congruence. rewrite H200 in Hcode.
  set (v := match entries_get body key with Some v => v | None => JNull end).
  assert (Hstore : parse_store st (Some key) = Ok (delete "response" (<[key := SVal v]> st))).
  { unfold parse_store, stamp_item. rewrite Hcode, Hresp. simpl. rewrite Hbody. simpl.
    fold v. destruct (decide (key = "response")) as [->|Hne].
    - by rewrite lookup_insert_eq.
    - rewrite lookup_insert_ne by done. by rewrite Hresp. }
  eexists. split; [exact Hstore|]. split; [by eapply parse_store_stamped|].
  split; [|split].
  - intros Hk. by rewrite lookup_delete_ne, lookup_insert_ne.
  - intros Hk. by rewrite lookup_delete_ne, lookup_insert_eq.
  - intros ->. by rewrite lookup_delete_eq.
Qed.

End ParseMore.

(** X1.  Without a key the buffer never carries the body: for every fetch
    result whose body can be read, [parse] with no key returns the four
    stamp columns without rows, whatever the response code and the body. *)
Theorem parse_without_key_is_skeleton :
  ∀ (uuid4 now_iso : nat → string) (requests_get : string → nat → Result Response)
    (frame_of_records : json → Result Frame.DataFrame)
    (url : string) (w w' : World) (st : gmap string StampVal)
    (r : Response) (body : json),
    get uuid4 now_iso requests_get url w = (Ok st, w') →
    st !! "response" = Some (SResponse r) →
    json_body r = Ok body →
    ∃ df, parse frame_of_records st None = Ok df
          ∧ Frame.height df = 0%nat
          ∧ Frame.column_names df = stamp_columns.
Proof.
  intros uuid4 now_iso requests_get frame_of_records url w w' st r body Hget Hresp Hbody.
  destruct (get_stamped _ _ _ _ _ _ _ Hget) as (Hst & r' & Hresp' & Hcode).
  assert (r' = r) as -> by congruence.
  destruct (decide (status_code r = 200)) as [H200|Hne];
    [|by eapply parse_skeleton].
  assert (Hstore : parse_store st None = Ok (delete "response" (<["data" := SVal body]> st))).
  { unfold parse_store, stamp_item. rewrite Hcode, Hresp. simpl. rewrite H200. simpl.
    rewrite Hbody. simpl. rewrite lookup_insert_ne by done. by rewrite Hresp. }
  pose proof (parse_store_stamped _ _ _ Hst Hstore) as Hst'.
  destruct (enrich_skeleton _ Hst') as (df & Hdf & Hh & Hnames).
  exists df. split; [|done].
  unfold parse. rewrite Hstore. simpl. unfold parse_frame, stamp_item.
  rewrite lookup_delete_ne, lookup_insert_ne, Hcode by done. simpl. exact Hdf.
Qed.

(** X2.  For a response with code 200 whose body has a non-empty value under
    the key (the key being neither response_code nor response), and a
    well-formed frame made of that value: [parse] returns a buffer of the
    height of the payload, also when normalisation leaves the payload no
    column; every normalised payload column that is not named like a stamp
    column is in the buffer unchanged; and when no payload column is named
    like a stamp column, the columns of the buffer are the normalised
    payload columns followed by the four stamp columns, in order. *)
Theorem parse_keeps_payload_columns :
  ∀ (uuid4 now_iso : nat → string) (requests_get : string → nat → Result Response)
    (frame_of_records : json → Result Frame.DataFrame)
    (url : string) (w w' : World) (st : gmap string StampVal)
    (key : string) (r : Response) (body : list (string * json)) (v : json)
    (payload : Frame.DataFrame),
    get uuid4 now_iso requests_get url w = (Ok st, w') →
    st !! "response" = Some (SResponse r) →
    status_code r = 200 →
    json_body r = Ok (JDict body) →
    entries_get body key = Some v →
    truthy v = true →
    key ≠ "response_code" → key ≠ "response" →
    frame_of_records v = Ok payload →
    Frame.well_formed payload →
    ∃ df,
      parse frame_of_records st (Some key) = Ok df
      ∧ Frame.height df = Frame.height payload
      ∧ (∀ c, c ∈ Frame.columns (normalized payload) →
              Frame.sname c ∉ stamp_columns →
              Frame.get_column df (Frame.sname c) = Some c)
      ∧ ((∀ n, n ∈ stamp_columns → n ∉ Frame.column_names (normalized payload)) →
         Frame.column_names df
         = (Frame.column_names (normalized payload) ++ stamp_columns)%list).
Proof.
  intros uuid4 now_iso requests_get frame_of_records url w w' st key r body v payload
    Hget Hresp H200 Hbody Hv Htruthy Hk1 Hk2 Hframe Hwf.
  destruct (parse_store_keyed _ _ _ _ _ _ _ key _ _ Hget Hresp H200 Hbody)
    as (st' & Hstore & Hst' & Hcode & Hkey & _).
  specialize (Hcode Hk1). specialize (Hkey Hk2). rewrite Hv in Hkey.
  destruct (enrich_total st' stamp_columns (normalized payload) Hst') as [df Hdf].
  assert (Hparse : parse frame_of_records st (Some key) = Ok df).
  { unfold parse. rewrite Hstore. simpl. unfold parse_frame, stamp_item.
    rewrite Hcode. simpl. unfold frame_of_key. rewrite Hkey, Htruthy.
    assert (pl_DataFrame frame_of_records v = Ok payload) as ->.
    { unfold pl_DataFrame. destruct v as [| | | | |[|x items]|]; try done. }
    simpl. rewrite clean_df_normalized by done. simpl. exact Hdf. }
  exists df. split; [done|].
  destruct (enrich_inv _ _ _ _ Hdf) as (Hother & Hheight & _).
  split; [exact Hheight|]. split.
  - intros c Hc Hfresh. rewrite Hother by done. unfold Frame.get_column.
    apply find_column_in; [|done]. apply (normalized_well_formed payload Hwf).
  - intros Hfresh. by apply (enrich_appends st'); [apply stamp_columns_NoDup| |].
Qed.

(** X3.  A value under the key that Python takes for false (null, an empty
    list or object, an empty string, zero, false) is treated like an absent
    key: for a response with code 200 the buffer has the four stamp columns
    and no row. *)
Theorem parse_falsy_value_like_missing_key :
  ∀ (uuid4 now_iso : nat → string) (requests_get : string → nat → Result Response)
    (frame_of_records : json → Result Frame.DataFrame)
    (url : string) (w w' : World) (st : gmap string StampVal)
    (key : string) (r : Response) (body : list (string * json)) (v : json),
    get uuid4 now_iso requests_get url w = (Ok st, w') →
    st !! "response" = Some (SResponse r) →
    status_code r = 200 →
    json_body r = Ok (JDict body) →
    entries_get body key = Some v →
    truthy v = false →
    key ≠ "response_code" →
    ∃ df, parse frame_of_records st (Some key) = Ok df
          ∧ Frame.height df = 0%nat
          ∧ Frame.column_names df = stamp_columns.
Proof.
  intros uuid4 now_iso requests_get frame_of_records url w w' st key r body v
    Hget Hresp H200 Hbody Hv Hfalsy Hk1.
  destruct (parse_store_keyed _ _ _ _ _ _ _ key _ _ Hget Hresp H200 Hbody)
    as (st' & Hstore & Hst' & Hcode & Hkey & Hgone).
  specialize (Hcode Hk1). rewrite Hv in Hkey.
  destruct (enrich_empty _ Hst') as (df & Hdf & Hh & Hnames).
  exists df. split; [|done].
  unfold parse. rewrite Hstore. simpl. unfold parse_frame, stamp_item.
  rewrite Hcode. simpl. unfold frame_of_key.
  destruct (decide (key = "response")) as [->|Hne].
  - rewrite Hgone by done. simpl. exact Hdf.
  - rewrite Hkey by done. rewrite Hfalsy. simpl. exact Hdf.
Qed.

(** X4.  For a response with code 200, [parse] lets the errors of the body
    through: what [json()] raises is raised unchanged, for any key, and a
    body that is not an object makes a keyed [parse] raise AttributeError. *)
Theorem parse_propagates_body_errors :
  ∀ (uuid4 now_iso : nat → string) (requests_get : string → nat → Result Response)
    (frame_of_records : json → Result Frame.DataFrame)
    (url : string) (w w' : World) (st : gmap string StampVal) (r : Response),
    get uuid4 now_iso requests_get url w = (Ok st, w') →
    st !! "response" = Some (SResponse r) →
    status_code r = 200 →
    (∀ e key, json_body r = Raise e → parse frame_of_records st key = Raise e)
    ∧ (∀ body key,
         json_body r = Ok body →
         (∀ entries, body ≠ JDict entries) →
         parse frame_of_records st (Some key)
         = Raise (mkExc AttributeError "object has no attribute 'get'")).
Proof.
  intros uuid4 now_iso requests_get frame_of_records url w w' st r Hget Hresp H200.
  destruct (get_stamped _ _ _ _ _ _ _ Hget) as (Hst & r' & Hresp' & Hcode).
  assert (r' = r) as -> by congruence. rewrite H200 in Hcode.
  split.
  - intros e key Hbody. unfold parse, parse_store, stamp_item.
    rewrite Hcode, Hresp. simpl. rewrite Hbody. by destruct key.
  - intros body key Hbody Hnot. unfold parse, parse_store, stamp_item.
    rewrite Hcode, Hresp. simpl. rewrite Hbody. simpl.
    destruct body; try done. by destruct (Hnot entries).
Qed.

(** X5.  [parse] uses its stamp up: after the first half of [parse] the
    stamp has no response any more, and any further [parse] of that stamp
    raises KeyError for the response. *)
Theorem parse_consumes_the_response :
  ∀ (frame_of_records : json → Result Frame.DataFrame)
    (st st' : gmap string StampVal) (key : option string),
    parse_store st key = Ok st' →
    st' !! "response" = None
    ∧ ∀ key', parse frame_of_records st' key' = Raise (mkExc KeyError "response").
Proof.
  intros frame_of_records st st' key Hstore.
  assert (Hshape : st' !! "response" = None ∧ ∃ c, st' !! "response_code" = Some c).
  { unfold parse_store in Hstore.
    destruct (stamp_item st "response_code") as [code|] eqn:Hcode; [simpl in Hstore|done].
    assert (∃ c, st !! "response_code" = Some c) as [c0 Hc0].
    { unfold stamp_item in Hcode. destruct (st !! "response_code"); [by eexists|done]. }
    set (upd := if is_200 code then _ else _) in Hstore.
    destruct upd as [st1|] eqn:Hupd; [simpl in Hstore|done].
    destruct (st1 !! "response"); [|done]. injection Hstore as <-.
    split; [by rewrite lookup_delete_eq|].
    rewrite lookup_delete_ne by done.
    subst upd. destruct (is_200 code).
    - destruct key as [k|].
      + destruct (stamp_item st "response") as [r|]; [simpl in Hupd|done].
        destruct (response_json r) as [body|]; [simpl in Hupd|done].
        destruct (json_get body k) as [v|]; [simpl in Hupd|done].
        injection Hupd as <-. destruct (decide (k = "response_code")) as [->|Hne].
        * eexists. by rewrite lookup_insert_eq.
        * exists c0. by rewrite lookup_insert_ne.
      + destruct (stamp_item st "response") as [r|]; [simpl in Hupd|done].
        destruct (response_json r) as [body|]; [simpl in Hupd|done].
        injection Hupd as <-. exists c0. by rewrite lookup_insert_ne.
    - injection Hupd as <-. exists c0. by rewrite lookup_insert_ne. }
  destruct Hshape as [Hgone [c Hc]]. split; [done|].
  intros key'. unfold parse, parse_store, stamp_item. rewrite Hc. simpl.
  destruct (is_200 c).
  - rewrite Hgone. by destruct key'.
  - simpl. rewrite lookup_insert_ne by done. by rewrite Hgone.
Qed.

Section GenerateMore.
Local Open Scope list_scope.

Variable uuid4 : nat → string.
Variable now_iso : nat → string.
Variable requests_get : string → nat → Result Response.
Variable urljoin : string → string → string.
Variable frame_of_records : json → Result Frame.DataFrame.

Lemma generate_keys_prefix url keys : ∀ w,
  requested_prefix (map (λ _, url) keys) w
    (generate_keys uuid4 now_iso requests_get frame_of_records url keys w)
  ∧ ∀ items w',
      generate_keys uuid4 now_iso requests_get frame_of_records url keys w = (Ok items, w') →
      map fst items = keys.
Proof.
  induction keys as [|k keys IH]; intros w; simpl.
  - split; [|by intros items w' [= <- <-]]. exists 0%nat. by rewrite app_nil_r.
  - pose proof (fetch_logs_request uuid4 now_iso requests_get frame_of_records
                  url (Some k) w) as Hlog.
    destruct (fetch uuid4 now_iso requests_get frame_of_records url (Some k) w)
      as [[df|e] w1]; simpl in Hlog.
    + destruct (IH w1) as [(n & Hn & Hall) Hnames].
      destruct (generate_keys uuid4 now_iso requests_get frame_of_records url keys w1)
        as [[items|e] w2]; simpl in *.
      * split.
        -- exists (S n). simpl. split; [by rewrite Hn, Hlog, <- app_assoc|].
           intros _. by rewrite Hall.
        -- intros items' w' [= <- <-]. simpl. by rewrite (Hnames items w2).
      * split; [|done]. exists (S n). simpl. split; [|done].
        by rewrite Hn, Hlog, <- app_assoc.
    + split; [|done]. exists 1%nat. simpl. split; [|done]. by rewrite take_0.
Qed.

Lemma generate_endpoint_prefix base e keys w :
  requested_prefix (map (λ _, urljoin base e) (endpoint_names (e, keys))) w
    (generate_endpoint uuid4 now_iso requests_get urljoin frame_of_records base e keys w)
  ∧ ∀ items w',
      generate_endpoint uuid4 now_iso requests_get urljoin frame_of_records base e keys w
      = (Ok items, w') →
      map fst items = endpoint_names (e, keys).
Proof.
  unfold generate_endpoint, endpoint_names. simpl. destruct keys as [|k keys].
  - pose proof (fetch_logs_request uuid4 now_iso requests_get frame_of_records
                  (urljoin base e) None w) as Hlog.
    destruct (fetch uuid4 now_iso requests_get frame_of_records (urljoin base e) None w)
      as [[df|e'] w1]; simpl in *.
    + split; [|by intros items w' [= <- <-]]. by exists 1%nat.
    + split; [|done]. by exists 1%nat.
  - apply generate_keys_prefix.
Qed.

Lemma generate_prefix base endpoints : ∀ w,
  requested_prefix (requested_urls urljoin base endpoints) w
    (generate uuid4 now_iso requests_get urljoin frame_of_records base endpoints w)
  ∧ ∀ items w',
      generate uuid4 now_iso requests_get urljoin frame_of_records base endpoints w
      = (Ok items, w') →
      map fst items = yielded_names endpoints.
Proof.
  induction endpoints as [|[e keys] endpoints IH]; intros w; simpl.
  - split; [|by intros items w' [= <- <-]]. exists 0%nat. by rewrite app_nil_r.
  - destruct (generate_endpoint_prefix base e keys w) as [(n1 & Hn1 & Hall1) Hnames1].
    set (urls1 := map (λ _, urljoin base e) (endpoint_names (e, keys))) in *.
    destruct (generate_endpoint uuid4 now_iso requests_get urljoin frame_of_records
                base e keys w) as [[items1|e1] w1]; simpl in *.
    + specialize (Hall1 eq_refl). subst n1. rewrite firstn_all in Hn1.
      destruct (IH w1) as [(n2 & Hn2 & Hall2) Hnames2].
      destruct (generate uuid4 now_iso requests_get urljoin frame_of_records
                  base endpoints w1) as [[items2|e2] w2]; simpl in *.
      * split.
        -- exists (length urls1 + n2)%nat. simpl. split.
           ++ by rewrite take_app_add, Hn2, Hn1, <- app_assoc.
           ++ intros _. by rewrite length_app, Hall2.
        -- intros items w' [= <- <-].
           rewrite map_app, (Hnames1 items1 w1), (Hnames2 items2 w2) by done. done.
      * split; [|done]. exists (length urls1 + n2)%nat. simpl. split; [|done].
        by rewrite take_app_add, Hn2, Hn1, <- app_assoc.
    + split; [|done]. exists (n1 `min` length urls1)%nat. simpl. split; [|done].
      rewrite Hn1. f_equal. rewrite take_app_le by lia.
      destruct (Nat.min_spec n1 (length urls1)) as [[? ->]|[? ->]]; [done|].
      by rewrite !take_ge by lia.
Qed.

End GenerateMore.

(** X6.  Whatever the network and the responses do, [generate] requests
    only addresses of the configured sequence, in order and without gaps: the
    requests made are a prefix of that sequence, the whole of it when
    [generate] returns, and then the items carry the configured names.  One
    call of [parse(get(url))] makes exactly one request, also when it fails. *)
Theorem generate_requests_in_configured_order :
  ∀ (uuid4 now_iso : nat → string) (requests_get : string → nat → Result Response)
    (urljoin : string → string → string)
    (frame_of_records : json → Result Frame.DataFrame)
    (base : string) (endpoints : list (string * list string)) (w : World),
    (∃ n, fetched (snd (generate uuid4 now_iso requests_get urljoin frame_of_records
                          base endpoints w))
          = (fetched w ++ take n (requested_urls urljoin base endpoints))%list)
    ∧ (∀ items w',
         generate uuid4 now_iso requests_get urljoin frame_of_records base endpoints w
         = (Ok items, w') →
         map fst items = yielded_names endpoints
         ∧ fetched w' = (fetched w ++ requested_urls urljoin base endpoints)%list)
    ∧ (∀ url key,
         fetched (snd (fetch uuid4 now_iso requests_get frame_of_records url key w))
         = (fetched w ++ [url])%list).
Proof.
  intros uuid4 now_iso requests_get urljoin frame_of_records base endpoints w.
  destruct (generate_prefix uuid4 now_iso requests_get urljoin frame_of_records
              base endpoints w) as [(n & Hn & Hall) Hnames].
  split; [by exists n|]. split.
  - intros items w' Hgen. split; [by eapply Hnames|].
    rewrite Hgen in Hn, Hall. simpl in *. rewrite Hn, Hall by done. by rewrite firstn_all.
  - intros url key. apply fetch_logs_request.
Qed.

Section CleanMore.
Import Frame.
Local Open Scope list_scope.

Lemma normalized_columns_clean df :
  Forall (λ c, is_nested (dtype c) = false ∧ is_boolean (dtype c) = false)
         (columns (normalized df)).
Proof.
  apply Forall_forall. intros c' Hc'. simpl in Hc'.
  apply list_elem_of_In, in_map_iff in Hc' as (c & <- & Hc).
  apply list_elem_of_In, list_elem_of_filter in Hc as [Hn _].
  split; [by apply cast_boolean_not_nested|].
  unfold cast_boolean. by destruct (is_boolean (dtype c)) eqn:E.
Qed.

Lemma normalized_names df :
  column_names (normalized df)
  = map sname (filter (λ c, is_nested (dtype c) = false) (columns df)).
Proof.
  unfold column_names. simpl. rewrite map_map. apply map_ext. apply sname_cast_boolean.
Qed.

End CleanMore.

(** X7.  On every buffer of the library, [clean_df] returns a buffer of the
    library again in which no column is nested or Boolean; its column names
    are those of the columns that were not nested, in their order; every
    column has the height of the input; a column that was neither nested nor
    Boolean is there unchanged, and a nested column is gone. *)
Theorem clean_df_result_is_clean :
  ∀ b : Frame.DataFrame,
    Frame.well_formed b →
    ∃ b',
      Utils.clean_df b = Ok b'
      ∧ Frame.well_formed b'
      ∧ Forall (λ c, Frame.is_nested (Frame.dtype c) = false
                     ∧ Frame.is_boolean (Frame.dtype c) = false) (Frame.columns b')
      ∧ Frame.column_names b'
        = map Frame.sname
            (filter (λ c, Frame.is_nested (Frame.dtype c) = false) (Frame.columns b))
      ∧ Forall (λ c, Frame.slen c = Frame.height b) (Frame.columns b')
      ∧ (∀ c, c ∈ Frame.columns b →
              Frame.is_nested (Frame.dtype c) = false →
              Frame.is_boolean (Frame.dtype c) = false →
              Frame.get_column b' (Frame.sname c) = Some c)
      ∧ (∀ c, c ∈ Frame.columns b →
              Frame.is_nested (Frame.dtype c) = true →
              Frame.get_column b' (Frame.sname c) = None).
Proof.
  intros b Hwf. exists (normalized b).
  split; [by apply clean_df_normalized|].
  split; [by apply normalized_well_formed|].
  split; [apply normalized_columns_clean|].
  split; [apply normalized_names|].
  split; [by apply height_normalized|].
  split.
  - intros c Hc Hn Hb. rewrite <- (cast_boolean_id c Hb) at 2.
    rewrite <- (sname_cast_boolean c). unfold Frame.get_column.
    apply find_column_in; [apply (normalized_well_formed b Hwf)|].
    simpl. apply list_elem_of_In, in_map, list_elem_of_In, list_elem_of_filter. done.
  - intros c Hc Hn. unfold Frame.get_column.
    destruct (Frame.find_column (Frame.sname c) (Frame.columns (normalized b)))
      as [d|] eqn:Hfind; [exfalso|done].
    assert (Hd : d ∈ Frame.columns (normalized b) ∧ Frame.sname d = Frame.sname c).
    { clear -Hfind. induction (Frame.columns (normalized b)) as [|x xs IH]; simpl in Hfind; [done|].
      destruct (String.eqb_spec (Frame.sname x) (Frame.sname c)).
      - injection Hfind as ->. split; [by left|done].
      - destruct (IH Hfind). split; [by right|done]. }
    destruct Hd as [Hd Hname]. simpl in Hd.
    apply list_elem_of_In, in_map_iff in Hd as (d0 & <- & Hd0).
    apply list_elem_of_In, list_elem_of_filter in Hd0 as [Hd0n Hd0].
    rewrite sname_cast_boolean in Hname.
    assert (d0 = c) as -> by (eapply same_name_same_column; [apply Hwf|done..]).
    congruence.
Qed.

Section RandomMore.
Import Random.

Variable randbelow : nat → nat → nat.
Hypothesis randbelow_lt : ∀ seed n, (0 < n)%nat → (randbelow seed n < n)%nat.

Lemma get_below (chars : string) i :
  (i < String.length chars)%nat → ∃ c, String.get i chars = Some c.
Proof.
  revert i. induction chars as [|c chars IH]; intros i Hi; simpl in *; [lia|].
  destruct i as [|i]; [by eexists|]. apply IH. lia.
Qed.

Lemma choice_spec chars seed :
  chars ≠ EmptyString →
  ∃ c, choice randbelow chars seed = (Chosen c, S seed)
       ∧ ∃ i, String.get i chars = Some c.
Proof using randbelow_lt.
  intros Hne. unfold choice.
  assert (Hlen : (0 < String.length chars)%nat) by (destruct chars; [done|simpl; lia]).
  destruct (get_below chars _ (randbelow_lt seed _ Hlen)) as [c Hc]. rewrite Hc.
  destruct chars; [done|]. exists c. split; [done|]. by eexists.
Qed.

Lemma choices_spec n chars : ∀ seed,
  chars ≠ EmptyString →
  ∃ s, choices randbelow n chars seed = (Chosen s, (seed + n)%nat)
       ∧ String.length s = n ∧ drawn_from chars s.
Proof using randbelow_lt.
  induction n as [|n IH]; intros seed Hne; simpl.
  - exists EmptyString. by rewrite Nat.add_0_r.
  - destruct (choice_spec chars seed Hne) as (c & -> & Hc).
    destruct (IH (S seed) Hne) as (s & -> & Hs & Hfrom).
    exists (String c s). replace (S seed + n)%nat with (seed + S n)%nat by lia.
    split; [done|]. simpl. by rewrite Hs.
Qed.

End RandomMore.

(** X8.  With a random source that stays below its bound, [id_generator]
    over a non-empty alphabet returns max(0, size) characters, each of the
    alphabet, after exactly that many draws; over an empty alphabet it raises
    IndexError for a positive size; for a size of zero or less it returns the
    empty string. *)
Theorem id_generator_length_and_alphabet :
  ∀ (randbelow : nat → nat → nat) (size : Z) (chars : string) (seed : nat),
    (∀ seed n, (0 < n)%nat → (randbelow seed n < n)%nat) →
    (chars ≠ EmptyString →
     ∃ s, Random.id_generator randbelow size chars seed
          = (Random.Chosen s, (seed + Z.to_nat size)%nat)
          ∧ Str.len s = Z.max 0 size
          ∧ drawn_from chars s)
    ∧ (0 < size →
       Random.id_generator randbelow size EmptyString seed
       = (Random.IndexError "Cannot choose from an empty sequence", seed))
    ∧ (size ≤ 0 →
       Random.id_generator randbelow size chars seed = (Random.Chosen EmptyString, seed)).
Proof.
  intros randbelow size chars seed Hlt. unfold Random.id_generator. split; [|split].
  - intros Hne. destruct (choices_spec randbelow Hlt (Z.to_nat size) chars seed Hne)
      as (s & Hs & Hlen & Hfrom).
    exists s. split; [done|]. split; [|done]. unfold Str.len. rewrite Hlen. lia.
  - intros Hpos. destruct (Z.to_nat size) as [|n] eqn:E; [lia|]. done.
  - intros Hle. by replace (Z.to_nat size) with 0%nat by lia.
Qed.

Lemma example_randbelow_lt seed n : (0 < n)%nat → (example_randbelow seed n < n)%nat.
Proof. intros Hn. unfold example_randbelow. apply Nat.mod_upper_bound. lia. Qed.

(** Witness of X8: six draws from the upper-case letters. *)
Lemma id_generator_length_and_alphabet_witness :
  ∃ s, Random.id_generator example_randbelow Random.default_size Random.ascii_uppercase 0
       = (Random.Chosen s, 6%nat)
       ∧ Str.len s = 6
       ∧ drawn_from Random.ascii_uppercase s.
Proof.
  destruct (proj1 (id_generator_length_and_alphabet example_randbelow Random.default_size
                     Random.ascii_uppercase 0
                     example_randbelow_lt))
    as (s & Hs & Hlen & Hfrom); [discriminate|].
  by exists s.
Defined.

(** ** Schema, statements and the loader *)

Section StringFacts.

Lemma upper_ascii_twice c : Str.upper_ascii (Str.upper_ascii c) = Str.upper_ascii c.
Proof. destruct c as [[] [] [] [] [] [] [] []]; reflexivity. Qed.

Lemma upper_twice s : Str.upper (Str.upper s) = Str.upper s.
Proof. induction s as [|c s IH]; simpl; [done|]. by rewrite upper_ascii_twice, IH. Qed.

Lemma upper_app a b : Str.upper (a ++ b) = Str.upper a ++ Str.upper b.
Proof. induction a as [|c a IH]; simpl; [done|]. by rewrite IH. Qed.

Lemma append_assoc (a b c : string) : (a ++ b) ++ c = a ++ b ++ c.
Proof.
  induction a as [|x a IH]; [done|].
  change (String x ((a ++ b) ++ c) = String x (a ++ b ++ c)). by rewrite IH.
Qed.

Lemma upper_ascii_quote c :
  Str.upper_ascii c = StrMore.quote_char → c = StrMore.quote_char.
Proof. destruct c as [[] [] [] [] [] [] [] []]; vm_compute; congruence. Qed.

Lemma upper_quote_free s : quote_free s → quote_free (Str.upper s).
Proof.
  induction s as [|c s IH]; simpl; [done|]. intros [Hc Hs]. split; [|by apply IH].
  intros E. by apply Hc, upper_ascii_quote.
Qed.

Lemma lstrip_quote_free s : quote_free s → StrMore.lstrip_quotes s = s.
Proof.
  destruct s as [|c s]; simpl; [done|]. intros [Hc _].
  destruct (Ascii.eqb_spec c StrMore.quote_char); done.
Qed.

Lemma rstrip_closing_quote s :
  quote_free s → StrMore.rstrip_quotes (s ++ dquote) = s.
Proof.
  induction s as [|c s IH]; simpl; [done|]. intros [Hc Hs]. rewrite IH by done.
  destruct s; [|done]. destruct (Ascii.eqb_spec c StrMore.quote_char); done.
Qed.

Lemma strip_quoted s : quote_free s → StrMore.strip_quotes (dquote ++ s ++ dquote) = s.
Proof.
  intros Hs. unfold StrMore.strip_quotes. simpl.
  destruct s as [|c s].
  - reflexivity.
  - simpl. destruct Hs as [Hc Hs]. destruct (Ascii.eqb_spec c StrMore.quote_char); [done|].
    change (StrMore.rstrip_quotes (String c s ++ dquote) = String c s).
    by apply rstrip_closing_quote.
Qed.

End StringFacts.

(** X9.  A string column never gets a bound outside 255..4000: its type is
    CLOB or VARCHAR2(n) with 255 <= n <= 4000.  Without sampled values the
    type is VARCHAR2(255); so it is for a sample whose longest string has at
    most 85 characters; beyond 1333 characters it is CLOB. *)
Theorem string_column_bound_in_range :
  (∀ column : option (list json),
     Loader.field_to_oracle_type Arrow.String_ column = "CLOB"
     ∨ ∃ n, 255 ≤ n ≤ 4000
            ∧ Loader.field_to_oracle_type Arrow.String_ column
              = "VARCHAR2(" ++ Str.of_Z n ++ ")")
  ∧ Loader.field_to_oracle_type Arrow.String_ None = "VARCHAR2(255)"
  ∧ (∀ values : list (option string),
       longest values ≤ 85 →
       Loader.field_to_oracle_type Arrow.String_ (Some (sample values)) = "VARCHAR2(255)")
  ∧ (∀ values : list (option string),
       1333 < longest values →
       Loader.field_to_oracle_type Arrow.String_ (Some (sample values)) = "CLOB").
Proof.
  split; [|split; [done|split]].
  - intros column. unfold Loader.field_to_oracle_type.
    set (bound := Z.max 255 (Loader.sampled_max_len column * 3)).
    simpl. destruct (Z.leb_spec bound 4000) as [Hle|Hgt]; [right|by left].
    exists bound. split; [unfold bound; lia|]. by rewrite Z.min_l.
  - intros values Hlen. unfold Loader.field_to_oracle_type.
    rewrite sampled_max_len_longest.
    replace (Z.max 255 (longest values * 3)) with 255 by lia. done.
  - intros values Hlen. unfold Loader.field_to_oracle_type.
    rewrite sampled_max_len_longest. simpl.
    destruct (Z.leb_spec (Z.max 255 (longest values * 3)) 4000); [lia|done].
Qed.

(** Witness of X9: a short sample. *)
Lemma string_column_bound_in_range_witness :
  Loader.field_to_oracle_type Arrow.String_ (Some (sample [Some "Arsenal"; None]))
  = "VARCHAR2(255)".
Proof.
  apply (proj1 (proj2 (proj2 string_column_bound_in_range)) [Some "Arsenal"; None]).
  vm_compute. discriminate.
Defined.

(** X10.  The statement that creates the table of a pipeline item names it
    uppercase(prefix)_UPPERCASE(name) in quotes, whatever the case of the
    prefix; more generally the statement depends on the table name only
    through its upper-cased form. *)
Theorem created_table_name_is_uppercase :
  ∀ (table : Arrow.Table) (table_prefix k : string),
    Loader.generate_oracle_ddl table (table_prefix ++ "_" ++ Str.upper k)
    = "CREATE TABLE " ++ dquote ++ Str.upper table_prefix ++ "_" ++ Str.upper k ++ dquote
      ++ " (" ++ newline ++ column_lines table ++ newline ++ ")"
    ∧ (∀ a b, Str.upper a = Str.upper b →
              Loader.generate_oracle_ddl table a = Loader.generate_oracle_ddl table b).
Proof.
  intros table table_prefix k. split.
  - unfold Loader.generate_oracle_ddl, column_lines.
    rewrite !upper_app, upper_twice. simpl.
    by rewrite !append_assoc.
  - intros a b Hab. unfold Loader.generate_oracle_ddl. by rewrite Hab.
Qed.

Section UpsertFacts.
Import LoaderMore.
Local Open Scope list_scope.

Lemma update_terms_from (keys cs : list string) : ∀ start,
  Forall quote_free cs →
  map (λ p, (snd p ++ " = :" ++ Str.of_Z (Z.of_nat (fst p) + 1))%string)
      (filter (λ p, StrMore.strip_quotes (snd p) ∉ keys)
              (combine (seq start (length (map quoted_upper cs))) (map quoted_upper cs)))
  = map update_term
        (filter (λ p, Str.upper (snd p) ∉ keys) (enumerate_from start cs)).
Proof.
  unfold enumerate_from. induction cs as [|c cs IH]; intros start Hfree; simpl; [done|].
  apply Forall_cons in Hfree as [Hc Hfree].
  rewrite !filter_cons. simpl.
  assert (Hstrip : StrMore.strip_quotes (quoted_upper c) = Str.upper c).
  { unfold quoted_upper. by apply strip_quoted, upper_quote_free. }
  rewrite Hstrip. destruct (decide (Str.upper c ∉ keys)); simpl; by rewrite IH.
Qed.

Lemma enumerate_from_lookup {A} (l : list A) : ∀ start i x,
  l !! i = Some x → ((start + i)%nat, x) ∈ enumerate_from start l.
Proof.
  unfold enumerate_from. induction l as [|y l IH]; intros start i x Hi; [done|].
  destruct i as [|i]; simpl in *.
  - injection Hi as ->. rewrite Nat.add_0_r. by left.
  - right. replace (start + S i)%nat with (S start + i)%nat by lia. by apply IH.
Qed.

End UpsertFacts.

(** X11.  For column names without double quotes, [UPDATE SET] of
    [upsert_data] has one assignment, numbered by the column's position, for
    exactly the columns whose upper-cased name is not literally among the
    key columns: a key column is left out only when it is given in upper
    case, and when all columns are keys in that sense the list is empty. *)
Theorem upsert_update_set_skips_uppercase_keys :
  ∀ (column_names key_columns : list string),
    Forall quote_free column_names →
    LoaderMore.update_set_terms (map LoaderMore.quoted_upper column_names) key_columns
    = map update_term
          (filter (λ p, Str.upper (snd p) ∉ key_columns) (enumerate_from 0 column_names))
    ∧ (∀ i c, column_names !! i = Some c → Str.upper c ∉ key_columns →
              update_term (i, c)
              ∈ LoaderMore.update_set_terms (map LoaderMore.quoted_upper column_names)
                  key_columns)
    ∧ (Forall (λ c, Str.upper c ∈ key_columns) column_names →
       LoaderMore.update_set_terms (map LoaderMore.quoted_upper column_names) key_columns
       = []).
Proof.
  intros column_names key_columns Hfree.
  assert (Heq : LoaderMore.update_set_terms (map LoaderMore.quoted_upper column_names)
                  key_columns
                = map update_term
                    (filter (λ p, Str.upper (snd p) ∉ key_columns)
                            (enumerate_from 0 column_names))).
  { unfold LoaderMore.update_set_terms, LoaderMore.enumerate. by apply update_terms_from. }
  split; [done|]. rewrite Heq. split.
  - intros i c Hi Hc. apply list_elem_of_In, in_map, list_elem_of_In, list_elem_of_filter.
    split; [done|]. by apply (enumerate_from_lookup column_names 0 i c).
  - intros Hall.
    assert (Hnone : ∀ start, filter (λ p : nat * string, Str.upper (snd p) ∉ key_columns)
                               (enumerate_from start column_names) = []).
    { unfold enumerate_from. clear Heq Hfree.
      induction Hall as [|c cs Hc _ IH]; intros start; simpl; [done|].
      rewrite filter_cons. simpl. destruct (decide (Str.upper c ∉ key_columns)); [done|].
      apply IH. }
    by rewrite Hnone.
Qed.

(** Witness of X11: the key given as id stays in the update set, the key given
    as ID does not. *)
Lemma upsert_update_set_skips_uppercase_keys_witness :
  LoaderMore.update_set_terms (map LoaderMore.quoted_upper ["id"; "name"]) ["id"]
  = [update_term (0%nat, "id"); update_term (1%nat, "name")]
  ∧ LoaderMore.update_set_terms (map LoaderMore.quoted_upper ["id"; "name"]) ["ID"]
    = [update_term (1%nat, "name")].
Proof.
  assert (Hfree : Forall quote_free ["id"; "name"]).
  { repeat constructor; discriminate. }
  split.
  - rewrite (proj1 (upsert_update_set_skips_uppercase_keys ["id"; "name"] ["id"] Hfree)).
    vm_compute. reflexivity.
  - rewrite (proj1 (upsert_update_set_skips_uppercase_keys ["id"; "name"] ["ID"] Hfree)).
    vm_compute. reflexivity.
Defined.

Section PipelineMore.
Context {L : Type}.
Variable to_arrow : Frame.DataFrame → Arrow.Table.
Variable method : string → Arrow.Table → L → Result unit * L.

Lemma load_items_stops before item after table_prefix l l1 e l2 :
  Pipeline.load_items to_arrow method table_prefix before l = (Ok tt, l1) →
  Pipeline.load_item to_arrow method table_prefix item l1 = (Raise e, l2) →
  Pipeline.load_items to_arrow method table_prefix (before ++ item :: after)%list l
  = (Raise e, l2).
Proof.
  revert l. induction before as [|x before IH]; intros l Hbefore Hitem; simpl in *.
  - injection Hbefore as <-. by rewrite Hitem.
  - destruct (Pipeline.load_item to_arrow method table_prefix x l) as [[[]|e0] l0];
      [by apply IH|done].
Qed.

End PipelineMore.

(** X12.  [rebuild] and [reload] stop at the first item whose load raises:
    the exception reaches the caller with the loader in the state that
    failing call left, and the items after it are not loaded. *)
Theorem pipeline_stops_at_first_failure :
  ∀ (L : Type) (to_arrow : Frame.DataFrame → Arrow.Table)
    (rebuild_table reload_table : string → Arrow.Table → L → Result unit * L)
    (table_prefix : string) (before after : list (string * Frame.DataFrame))
    (item : string * Frame.DataFrame) (e : PyExc) (l l1 l2 : L),
    (Pipeline.rebuild to_arrow rebuild_table table_prefix before l = (Ok tt, l1) →
     rebuild_table (table_prefix ++ "_" ++ Str.upper (fst item)) (to_arrow (snd item)) l1
     = (Raise e, l2) →
     Pipeline.rebuild to_arrow rebuild_table table_prefix (before ++ item :: after)%list l
     = (Raise e, l2))
    ∧ (Pipeline.reload to_arrow reload_table table_prefix before l = (Ok tt, l1) →
       reload_table (table_prefix ++ "_" ++ Str.upper (fst item)) (to_arrow (snd item)) l1
       = (Raise e, l2) →
       Pipeline.reload to_arrow reload_table table_prefix (before ++ item :: after)%list l
       = (Raise e, l2)).
Proof.
  intros L to_arrow rebuild_table reload_table table_prefix before after [k df] e l l1 l2.
  split; intros Hbefore Hitem; by eapply load_items_stops.
Qed.

(** Witness of X12: the second of three tables is refused. *)
Lemma pipeline_stops_at_first_failure_witness :
  Pipeline.rebuild (λ _, []) (refusing_loader "FPL_TEAMS") "FPL"
    [("events", Frame.empty); ("teams", Frame.empty); ("elements", Frame.empty)] []
  = (Raise missing_table, [("FPL_EVENTS", [])]).
Proof.
  apply (proj1 (pipeline_stops_at_first_failure _ (λ _, []) (refusing_loader "FPL_TEAMS")
                  (refusing_loader "FPL_TEAMS") "FPL" [("events", Frame.empty)]
                  [("elements", Frame.empty)] ("teams", Frame.empty) missing_table
                  [] [("FPL_EVENTS", [])] [("FPL_EVENTS", [])])); reflexivity.
Defined.

(** X13.  [insert_data] has no handler: an exception of the connection, of
    [executemany] or of [commit] reaches the caller unchanged, nothing is
    logged after the first record, the steps after the failing one are not
    run, and a connection that was opened is given back. *)
Theorem insert_data_lets_errors_through :
  ∀ (DB : Type) (drv : Loader.Driver DB) (more : LoaderMore.DriverMore DB)
    (pool_alias seconds : string) (data : Arrow.Table) (table_name : string)
    (s : Loader.State DB) (e : PyExc),
    (∀ d1, Loader.connect drv pool_alias (Loader.db s) = (Raise e, d1) →
           LoaderMore.insert_data drv more pool_alias seconds data table_name s
           = (Raise e,
              Loader.mkState d1
                (Loader.log s
                 ++ [Loader.mkLog Loader.INFO ("Inserting data into table " ++ table_name)])))
    ∧ (∀ d1 d2,
         Loader.connect drv pool_alias (Loader.db s) = (Ok tt, d1) →
         LoaderMore.executemany more (LoaderMore.insert_sql data table_name) data d1
         = (Raise e, d2) →
         LoaderMore.insert_data drv more pool_alias seconds data table_name s
         = (Raise e,
            Loader.mkState (Loader.release drv d2)
              (Loader.log s
               ++ [Loader.mkLog Loader.INFO ("Inserting data into table " ++ table_name)])))
    ∧ (∀ d1 n d2 d3,
         Loader.connect drv pool_alias (Loader.db s) = (Ok tt, d1) →
         LoaderMore.executemany more (LoaderMore.insert_sql data table_name) data d1
         = (Ok n, d2) →
         Loader.commit drv d2 = (Raise e, d3) →
         LoaderMore.insert_data drv more pool_alias seconds data table_name s
         = (Raise e,
            Loader.mkState (Loader.release drv d3)
              (Loader.log s
               ++ [Loader.mkLog Loader.INFO ("Inserting data into table " ++ table_name)]))).
Proof.
  intros DB drv more pool_alias seconds data table_name s e.
  split; [|split].
  - intros d1 Hc. unfold LoaderMore.insert_data, LoaderMore.insert_block, Loader.bind at 1.
    simpl. unfold Loader.with_connection, Loader.call. simpl. by rewrite Hc.
  - intros d1 d2 Hc Hx. unfold LoaderMore.insert_data, LoaderMore.insert_block,
      Loader.bind at 1. simpl. unfold Loader.with_connection, Loader.call at 1. simpl.
    rewrite Hc. unfold Loader.bind, Loader.call. simpl. by rewrite Hx.
  - intros d1 n d2 d3 Hc Hx Hcommit. unfold LoaderMore.insert_data, LoaderMore.insert_block,
      Loader.bind at 1. simpl. unfold Loader.with_connection, Loader.call at 1. simpl.
    rewrite Hc. unfold Loader.bind, Loader.call. simpl. rewrite Hx. simpl. by rewrite Hcommit.
Qed.

(** X14.  [rebuild_table] drops only a table the check found: when the
    check says no, it goes on with [create_table] and [insert_data]
    directly; when the check says yes and the drop fails with a database
    error, that error is logged and raised and nothing is created or
    inserted; when the check itself raises, nothing else is run. *)
Theorem rebuild_table_drops_only_existing_and_stops :
  ∀ (DB : Type) (drv : Loader.Driver DB) (more : LoaderMore.DriverMore DB)
    (pool_alias user seconds : string) (data : Arrow.Table) (table_name : string)
    (s s1 : Loader.State DB),
    (LoaderMore.check_table_exists drv more pool_alias user table_name s = (Ok false, s1) →
     LoaderMore.rebuild_table drv more pool_alias user seconds table_name data s
     = Loader.bind (Loader.create_table drv pool_alias table_name data)
         (λ _, LoaderMore.insert_data drv more pool_alias seconds data table_name) s1)
    ∧ (∀ e s2,
         LoaderMore.check_table_exists drv more pool_alias user table_name s = (Ok true, s1) →
         is_database_error e = true →
         Loader.drop_block drv pool_alias table_name
           (logged Loader.INFO ("Dropping table " ++ table_name) s1) = (Raise e, s2) →
         LoaderMore.rebuild_table drv more pool_alias user seconds table_name data s
         = (Raise e, logged Loader.ERROR ("Dropping table failed: " ++ exc_msg e) s2))
    ∧ (∀ e,
         LoaderMore.check_table_exists drv more pool_alias user table_name s = (Raise e, s1) →
         LoaderMore.rebuild_table drv more pool_alias user seconds table_name data s
         = (Raise e, s1)).
Proof.
  intros DB drv more pool_alias user seconds data table_name s s1.
  split; [|split].
  - intros Hcheck. unfold LoaderMore.rebuild_table, Loader.bind at 1. by rewrite Hcheck.
  - intros e s2 Hcheck Hdb Hdrop.
    unfold LoaderMore.rebuild_table, Loader.bind at 1. rewrite Hcheck.
    unfold Loader.bind at 1.
    assert (Loader.drop_table drv pool_alias table_name s1
            = (Raise e, logged Loader.ERROR ("Dropping table failed: " ++ exc_msg e) s2))
      as ->; [|done].
    unfold Loader.drop_table, Loader.bind at 1. simpl. by apply reraise_database_error.
  - intros e Hcheck. unfold LoaderMore.rebuild_table, Loader.bind at 1. by rewrite Hcheck.
Qed.

(** X15.  [reload_table] of a table the check did not find does not
    truncate and does not create: it is [insert_data] alone, and when the
    database refuses the insert the error reaches the caller. *)
Theorem reload_table_of_missing_table_only_inserts :
  ∀ (DB : Type) (drv : Loader.Driver DB) (more : LoaderMore.DriverMore DB)
    (pool_alias user seconds : string) (data : Arrow.Table) (table_name : string)
    (s s1 : Loader.State DB),
    LoaderMore.check_table_exists drv more pool_alias user table_name s = (Ok false, s1) →
    LoaderMore.reload_table drv more pool_alias user seconds table_name data s
    = LoaderMore.insert_data drv more pool_alias seconds data table_name s1
    ∧ (∀ e d1 d2,
         Loader.connect drv pool_alias (Loader.db s1) = (Ok tt, d1) →
         LoaderMore.executemany more (LoaderMore.insert_sql data table_name) data d1
         = (Raise e, d2) →
         LoaderMore.reload_table drv more pool_alias user seconds table_name data s
         = (Raise e,
            Loader.mkState (Loader.release drv d2)
              (Loader.log s1
               ++ [Loader.mkLog Loader.INFO ("Inserting data into table " ++ table_name)]))).
Proof.
  intros DB drv more pool_alias user seconds data table_name s s1 Hcheck.
  assert (Hreload : LoaderMore.reload_table drv more pool_alias user seconds table_name data s
                    = LoaderMore.insert_data drv more pool_alias seconds data table_name s1).
  { unfold LoaderMore.reload_table, Loader.bind at 1. by rewrite Hcheck. }
  split; [done|]. intros e d1 d2 Hc Hx. rewrite Hreload.
  unfold LoaderMore.insert_data, LoaderMore.insert_block, Loader.bind at 1. simpl.
  unfold Loader.with_connection, Loader.call at 1. simpl.
  rewrite Hc. unfold Loader.bind, Loader.call. simpl. by rewrite Hx.
Qed.

(** Witness of X15: the table is not found and the insert is refused. *)
Lemma reload_table_of_missing_table_only_inserts_witness :
  LoaderMore.reload_table (scripted_driver None) (scripted_more false (Some missing_table))
    "POOL" "fpl" "0.01" "FPL_EVENTS" [] fresh_state
  = (Raise missing_table,
     Loader.mkState []
       [Loader.mkLog Loader.INFO "Checking if table FPL_EVENTS exists";
        Loader.mkLog Loader.INFO "Table FPL_EVENTS exists: False";
        Loader.mkLog Loader.INFO "Inserting data into table FPL_EVENTS"]).
Proof.
  exact (proj2 (reload_table_of_missing_table_only_inserts (list string)
                  (scripted_driver None) (scripted_more false (Some missing_table))
                  "POOL" "fpl" "0.01" [] "FPL_EVENTS" fresh_state
                  (Loader.mkState []
                     [Loader.mkLog Loader.INFO "Checking if table FPL_EVENTS exists";
                      Loader.mkLog Loader.INFO "Table FPL_EVENTS exists: False"])
                  eq_refl)
           missing_table [] [] eq_refl eq_refl).
Defined.

(** X16.  [test_connection] answers False instead of raising when the
    connection fails with a database error, and logs it; with a connection
    it answers what [is_healthy] says; an exception that is not a database
    error is raised. *)
Theorem test_connection_reports_instead_of_raising :
  ∀ (DB : Type) (drv : Loader.Driver DB) (more : LoaderMore.DriverMore DB)
    (pool_alias dsn : string) (s : Loader.State DB),
    (∀ e d1,
       Loader.connect drv pool_alias (Loader.db s) = (Raise e, d1) →
       is_database_error e = true →
       LoaderMore.test_connection drv more pool_alias dsn s
       = (Ok false,
          Loader.mkState d1
            (Loader.log s
             ++ [Loader.mkLog Loader.INFO ("Testing connection to Oracle DB at " ++ dsn);
                 Loader.mkLog Loader.ERROR ("Connection failed: " ++ exc_msg e)])))
    ∧ (∀ d1 h d2,
         Loader.connect drv pool_alias (Loader.db s) = (Ok tt, d1) →
         LoaderMore.is_healthy more d1 = (Ok h, d2) →
         LoaderMore.test_connection drv more pool_alias dsn s
         = (Ok h,
            Loader.mkState (Loader.release drv d2)
              (Loader.log s
               ++ [Loader.mkLog Loader.INFO ("Testing connection to Oracle DB at " ++ dsn);
                   Loader.mkLog Loader.INFO
                     ("Connection healthy: " ++ StrMore.of_bool h)])))
    ∧ (∀ e d1,
         Loader.connect drv pool_alias (Loader.db s) = (Raise e, d1) →
         is_database_error e = false →
         LoaderMore.test_connection drv more pool_alias dsn s
         = (Raise e,
            Loader.mkState d1
              (Loader.log s
               ++ [Loader.mkLog Loader.INFO ("Testing connection to Oracle DB at " ++ dsn)]))).
Proof.
  intros DB drv more pool_alias dsn s. split; [|split].
  - intros e d1 Hc Hdb. unfold LoaderMore.test_connection, Loader.bind at 1. simpl.
    unfold Loader.try_except_database_error, LoaderMore.test_connection_block,
      Loader.with_connection, Loader.call. simpl. rewrite Hc, Hdb.
    unfold Loader.bind, Loader.logger_error, Loader.ret. simpl.
    by rewrite <- app_assoc.
  - intros d1 h d2 Hc Hh. unfold LoaderMore.test_connection, Loader.bind at 1. simpl.
    unfold Loader.try_except_database_error, LoaderMore.test_connection_block,
      Loader.with_connection, Loader.call at 1. simpl. rewrite Hc.
    unfold Loader.bind, Loader.call. simpl. rewrite Hh. simpl.
    by rewrite <- app_assoc.
  - intros e d1 Hc Hdb. unfold LoaderMore.test_connection, Loader.bind at 1. simpl.
    unfold Loader.try_except_database_error, LoaderMore.test_connection_block,
      Loader.with_connection, Loader.call. simpl. by rewrite Hc, Hdb.
Qed.

(** [check_table_exists], call by call. *)
Lemma check_table_exists_steps {DB} (drv : Loader.Driver DB) (more : LoaderMore.DriverMore DB)
    pool_alias user table_name s :
  LoaderMore.check_table_exists drv more pool_alias user table_name s
  = let first := Loader.mkLog Loader.INFO ("Checking if table " ++ table_name ++ " exists") in
    match Loader.connect drv pool_alias (Loader.db s) with
    | (Raise e, d1) => (Raise e, Loader.mkState d1 (Loader.log s ++ [first]))
    | (Ok _, d1) =>
        match LoaderMore.execute_binds more LoaderMore.exists_sql
                [("tbl_name", Str.upper table_name); ("owner", Str.upper user)] d1 with
        | (Raise e, d2) =>
            (Raise e, Loader.mkState (Loader.release drv d2) (Loader.log s ++ [first]))
        | (Ok _, d2) =>
            match Loader.fetchone0 drv d2 with
            | (Raise e, d3) =>
                (Raise e, Loader.mkState (Loader.release drv d3) (Loader.log s ++ [first]))
            | (Ok count, d3) =>
                (Ok (0 <? count),
                 Loader.mkState (Loader.release drv d3)
                   (Loader.log s
                    ++ [first;
                        Loader.mkLog Loader.INFO
                          ("Table " ++ table_name ++ " exists: "
                           ++ StrMore.of_bool (0 <? count))]))
            end
        end
    end.
Proof.
  unfold LoaderMore.check_table_exists, Loader.bind, Loader.with_connection, Loader.call,
    Loader.logger_info, Loader.ret. simpl.
  destruct (Loader.connect drv pool_alias (Loader.db s)) as [[[]|e] d1]; simpl; [|done].
  destruct (LoaderMore.execute_binds more LoaderMore.exists_sql _ d1) as [[[]|e] d2];
    simpl; [|done].
  destruct (Loader.fetchone0 drv d2) as [[n|e] d3]; simpl; [|done].
  by rewrite <- app_assoc.
Qed.

(** X17.  [check_table_exists] does not tell apart names that agree when
    upper-cased: they give the same answer, or the same exception, and leave
    the database in the same state. *)
Theorem check_table_exists_ignores_case :
  ∀ (DB : Type) (drv : Loader.Driver DB) (more : LoaderMore.DriverMore DB)
    (pool_alias user : string) (a b : string) (s : Loader.State DB),
    Str.upper a = Str.upper b →
    fst (LoaderMore.check_table_exists drv more pool_alias user a s)
    = fst (LoaderMore.check_table_exists drv more pool_alias user b s)
    ∧ Loader.db (snd (LoaderMore.check_table_exists drv more pool_alias user a s))
      = Loader.db (snd (LoaderMore.check_table_exists drv more pool_alias user b s)).
Proof.
  intros DB drv more pool_alias user a b s Hab.
  rewrite !check_table_exists_steps. simpl. rewrite Hab.
  destruct (Loader.connect drv pool_alias (Loader.db s)) as [[[]|e] d1]; [|done].
  destruct (LoaderMore.execute_binds more LoaderMore.exists_sql _ d1) as [[[]|e] d2];
    [|done].
  by destruct (Loader.fetchone0 drv d2) as [[n|e] d3].
Qed.

(** Witness of X17. *)
Lemma check_table_exists_ignores_case_witness :
  fst (LoaderMore.check_table_exists (scripted_driver None) (scripted_more true None)
         "POOL" "fpl" "fpl_events" fresh_state)
  = fst (LoaderMore.check_table_exists (scripted_driver None) (scripted_more true None)
           "POOL" "fpl" "FPL_EVENTS" fresh_state).
Proof.
  apply (check_table_exists_ignores_case (list string) (scripted_driver None)
           (scripted_more true None) "POOL" "fpl" "fpl_events" "FPL_EVENTS" fresh_state).
  reflexivity.
Defined.

(** X18.  [read_data] chooses the reader by the lower-cased suffix: a suffix
    other than .csv, .xlsx and .json in any case raises ValueError with the
    suffix as written, after an ERROR record; a suffix that is .csv in any
    case goes to the CSV reader; what a reader raises is raised. *)
Theorem read_data_dispatches_on_lowercased_suffix :
  ∀ (DB Frame_ : Type) (read_csv read_excel read_json : string → Result Frame_)
    (shape : Frame_ → string) (pa_table : Frame_ → Result Arrow.Table)
    (source suffix : string) (s : Loader.State DB),
    (StrMore.lower suffix ≠ ".csv" → StrMore.lower suffix ≠ ".xlsx" →
     StrMore.lower suffix ≠ ".json" →
     LoaderMore.read_data read_csv read_excel read_json shape pa_table source suffix s
     = (Raise (mkExc ValueError ("Unsupported file format: " ++ suffix)),
        Loader.mkState (Loader.db s)
          (Loader.log s
           ++ [Loader.mkLog Loader.INFO ("Reading data from " ++ source);
               Loader.mkLog Loader.ERROR ("Unsupported file format: " ++ suffix)])))
    ∧ (∀ df,
         StrMore.lower suffix = ".csv" → read_csv source = Ok df →
         LoaderMore.read_data read_csv read_excel read_json shape pa_table source suffix s
         = (pa_table df,
            Loader.mkState (Loader.db s)
              (Loader.log s
               ++ [Loader.mkLog Loader.INFO ("Reading data from " ++ source);
                   Loader.mkLog Loader.INFO
                     ("Data read successfully with shape " ++ shape df)])))
    ∧ (∀ e,
         StrMore.lower suffix = ".json" → read_json source = Raise e →
         LoaderMore.read_data read_csv read_excel read_json shape pa_table source suffix s
         = (Raise e,
            Loader.mkState (Loader.db s)
              (Loader.log s ++ [Loader.mkLog Loader.INFO ("Reading data from " ++ source)]))).
Proof.
  intros DB Frame_ read_csv read_excel read_json shape pa_table source suffix s.
  unfold LoaderMore.read_data, Loader.bind at 1. simpl. split; [|split].
  - intros H1 H2 H3.
    destruct (String.eqb_spec (StrMore.lower suffix) ".csv"); [done|].
    destruct (String.eqb_spec (StrMore.lower suffix) ".xlsx"); [done|].
    destruct (String.eqb_spec (StrMore.lower suffix) ".json"); [done|].
    unfold Loader.bind, Loader.logger_error, Loader.raise. simpl. by rewrite <- app_assoc.
  - intros df -> Hread. simpl. unfold Loader.bind, LoaderMore.pure_call. rewrite Hread.
    simpl. by rewrite <- app_assoc.
  - intros e -> Hread. simpl. unfold Loader.bind, LoaderMore.pure_call. by rewrite Hread.
Qed.

(** Witness of X18: the unsupported file of the package's own test, and a CSV
    file with an upper-case suffix. *)
Lemma read_data_dispatches_on_lowercased_suffix_witness :
  LoaderMore.read_data example_reader example_reader example_reader example_shape
    example_pa_table "tests/data/sample_data.txt" ".txt" fresh_state
  = (Raise (mkExc ValueError "Unsupported file format: .txt"),
     Loader.mkState []
       [Loader.mkLog Loader.INFO "Reading data from tests/data/sample_data.txt";
        Loader.mkLog Loader.ERROR "Unsupported file format: .txt"])
  ∧ fst (LoaderMore.read_data example_reader example_reader example_reader example_shape
           example_pa_table "tests/data/SAMPLE.CSV" ".CSV" fresh_state)
    = Ok [].
Proof.
  split.
  - apply (proj1 (read_data_dispatches_on_lowercased_suffix (list string) nat
                    example_reader example_reader example_reader example_shape
                    example_pa_table "tests/data/sample_data.txt" ".txt" fresh_state));
      discriminate.
  - rewrite (proj1 (proj2 (read_data_dispatches_on_lowercased_suffix (list string) nat
                             example_reader example_reader example_reader example_shape
                             example_pa_table "tests/data/SAMPLE.CSV" ".CSV" fresh_state))
               3%nat eq_refl eq_refl).
    reflexivity.
Defined.

(** X19.  Against a driver that accepts and records every statement and
    answers the existence query with a count: when the count is positive
    (the table is found), [rebuild_table] runs the existence query,
    DROP TABLE ... PURGE, the CREATE TABLE statement and the INSERT, in this
    order, and [reload_table] the existence query, TRUNCATE TABLE and the
    INSERT; when it is not, [rebuild_table] runs the existence query,
    CREATE TABLE and INSERT, and [reload_table] the existence query and the
    INSERT. *)
Theorem rebuild_and_reload_statement_order :
  ∀ (pool_alias user seconds table_name : string) (data : Arrow.Table) (count : Z),
    (0 < count →
     Loader.db (snd (LoaderMore.rebuild_table (recording_driver count) recording_more
                       pool_alias user seconds table_name data fresh_state))
     = [LoaderMore.exists_sql;
        "DROP TABLE " ++ table_name ++ " PURGE";
        Loader.generate_oracle_ddl data table_name;
        LoaderMore.insert_sql data table_name]
     ∧ Loader.db (snd (LoaderMore.reload_table (recording_driver count) recording_more
                         pool_alias user seconds table_name data fresh_state))
       = [LoaderMore.exists_sql;
          "TRUNCATE TABLE " ++ table_name;
          LoaderMore.insert_sql data table_name])
    ∧ (count ≤ 0 →
       Loader.db (snd (LoaderMore.rebuild_table (recording_driver count) recording_more
                         pool_alias user seconds table_name data fresh_state))
       = [LoaderMore.exists_sql;
          Loader.generate_oracle_ddl data table_name;
          LoaderMore.insert_sql data table_name]
       ∧ Loader.db (snd (LoaderMore.reload_table (recording_driver count) recording_more
                           pool_alias user seconds table_name data fresh_state))
         = [LoaderMore.exists_sql;
            LoaderMore.insert_sql data table_name]).
Proof.
  intros pool_alias user seconds table_name data count.
  unfold LoaderMore.rebuild_table, LoaderMore.reload_table, LoaderMore.check_table_exists,
    Loader.bind.
  simpl. split.
  - intros Hfound. apply Z.ltb_lt in Hfound. rewrite Hfound. by split.
  - intros Hnone. apply Z.ltb_ge in Hnone. rewrite Hnone. by split.
Qed.

(** Witness of X19: one table of that name, and none. *)
Lemma rebuild_and_reload_statement_order_witness :
  Loader.db (snd (LoaderMore.reload_table (recording_driver 1) recording_more
                    "POOL" "fpl" "0.01" "FPL_EVENTS" [] fresh_state))
  = [LoaderMore.exists_sql;
     "TRUNCATE TABLE FPL_EVENTS";
     LoaderMore.insert_sql [] "FPL_EVENTS"]
  ∧ Loader.db (snd (LoaderMore.rebuild_table (recording_driver 0) recording_more
                      "POOL" "fpl" "0.01" "FPL_EVENTS" [] fresh_state))
    = [LoaderMore.exists_sql;
       Loader.generate_oracle_ddl [] "FPL_EVENTS";
       LoaderMore.insert_sql [] "FPL_EVENTS"].
Proof.
  split.
  - apply (proj1 (rebuild_and_reload_statement_order "POOL" "fpl" "0.01" "FPL_EVENTS" [] 1)).
    reflexivity.
  - apply (proj2 (rebuild_and_reload_statement_order "POOL" "fpl" "0.01" "FPL_EVENTS" [] 0)).
    discriminate.
Defined.

(** ** Witnesses of the further properties *)

Lemma example_events_frame_well_formed : Frame.well_formed example_events_frame.
Proof.
  split.
  - apply (bool_decide_unpack _). vm_compute. exact I.
  - repeat constructor.
Qed.

(** Witness of X1: the list of fixtures is read and left out. *)
Lemma parse_without_key_is_skeleton_witness :
  ∃ df, parse example_constructor (example_stamp 200 example_events) None = Ok df
        ∧ Frame.height df = 0%nat
        ∧ Frame.column_names df = stamp_columns.
Proof.
  apply (parse_without_key_is_skeleton example_uuid4 example_now (server 200 example_events)
           example_constructor example_url first_world (mkWorld 2 [example_url])
           (example_stamp 200 example_events)
           (mkResponse 200 123000 (Ok example_events)) example_events);
    reflexivity.
Defined.

(** Witness of X2: the two events keep their rows and their id column. *)
Lemma parse_keeps_payload_columns_witness :
  ∃ df,
    parse example_constructor (example_stamp 200 (JDict [("events", example_events)]))
      (Some "events") = Ok df
    ∧ Frame.height df = 2%nat
    ∧ Frame.get_column df "id" = Some (Frame.mkSeries "id" Frame.Int64 [JInt 1; JInt 2])
    ∧ Frame.get_column df "active"
      = Some (Frame.mkSeries "active" Frame.Int8 [JInt 1; JInt 0]).
Proof.
  destruct (parse_keeps_payload_columns example_uuid4 example_now
              (server 200 (JDict [("events", example_events)])) example_constructor
              example_url first_world (mkWorld 2 [example_url])
              (example_stamp 200 (JDict [("events", example_events)])) "events"
              (mkResponse 200 123000 (Ok (JDict [("events", example_events)])))
              [("events", example_events)] example_events example_events_frame
              eq_refl eq_refl eq_refl eq_refl eq_refl eq_refl)
    as (df & Hparse & Hheight & Hcols & _);
    [discriminate | discriminate | reflexivity | apply example_events_frame_well_formed |].
  exists df. split; [exact Hparse|]. split; [exact Hheight|]. split.
  - apply (Hcols (Frame.mkSeries "id" Frame.Int64 [JInt 1; JInt 2])).
    + simpl. left.
    + vm_compute. intros H. repeat (apply elem_of_cons in H as [H|H]; [discriminate|]).
      by apply elem_of_nil in H.
  - apply (Hcols (Frame.mkSeries "active" Frame.Int8 [JInt 1; JInt 0])).
    + simpl. right. left.
    + vm_compute. intros H. repeat (apply elem_of_cons in H as [H|H]; [discriminate|]).
      by apply elem_of_nil in H.
Defined.

(** Witness of X3: the key is there and holds an empty list. *)
Lemma parse_falsy_value_like_missing_key_witness :
  ∃ df, parse example_constructor (example_stamp 200 (JDict [("events", JList [])]))
          (Some "events") = Ok df
        ∧ Frame.height df = 0%nat
        ∧ Frame.column_names df = stamp_columns.
Proof.
  apply (parse_falsy_value_like_missing_key example_uuid4 example_now
           (server 200 (JDict [("events", JList [])])) example_constructor
           example_url first_world (mkWorld 2 [example_url])
           (example_stamp 200 (JDict [("events", JList [])])) "events"
           (mkResponse 200 123000 (Ok (JDict [("events", JList [])])))
           [("events", JList [])] (JList []));
    try reflexivity. discriminate.
Defined.

(** Witness of X4: a body that is not JSON. *)
Lemma parse_propagates_body_errors_witness :
  parse example_constructor unreadable_stamp (Some "events") = Raise unreadable.
Proof.
  apply (proj1 (parse_propagates_body_errors example_uuid4 example_now unreadable_server
                  example_constructor example_url first_world (mkWorld 2 [example_url])
                  unreadable_stamp unreadable_response eq_refl eq_refl eq_refl)).
  reflexivity.
Defined.

(** Witness of X5: the stamp of an answer 503 after one [parse]. *)
Lemma parse_consumes_the_response_witness :
  parse example_constructor
    (delete "response" (<["data" := SVal JNull]> (example_stamp 503 JNull))) (Some "events")
  = Raise (mkExc KeyError "response").
Proof.
  apply (proj2 (parse_consumes_the_response example_constructor (example_stamp 503 JNull)
                  (delete "response" (<["data" := SVal JNull]> (example_stamp 503 JNull)))
                  None eq_refl)).
Defined.

(** Witness of X7: the mixed frame. *)
Lemma clean_df_result_is_clean_witness :
  ∃ b', Utils.clean_df example_mixed_frame = Ok b'
        ∧ Frame.column_names b' = ["id"; "active"].
Proof.
  destruct (clean_df_result_is_clean example_mixed_frame) as (b' & Hb' & _ & _ & Hnames & _).
  - split.
    + apply (bool_decide_unpack _). vm_compute. exact I.
    + repeat constructor.
  - exists b'. split; [exact Hb'|]. rewrite Hnames. reflexivity.
Defined.
